(** * Change-detection pipeline of the activity monitor (src/monitor.py)

    A shallow embedding of [fetch_page_content], [extract_content],
    [compute_hash], [load_previous_hash], [save_hash] and
    [check_for_changes], with the properties of the pipeline proved about
    the embedded functions.

    Conventions.
    - A Python [str] is a list of Unicode code points ([N], at most
      0x10FFFF); a [bytes] value is a list of octets.
    - A raised exception is the [Raise] branch of [result].
    - The libraries the module calls are modelled by what the module
      observes of them: the HTTP exchange by its outcome, the parsed page
      by the tree of tags and strings, the selector engine by the
      selectors it reads and the tags they match, the file system by what
      is found at a path. *)

From Stdlib Require Import NArith List Bool Lia String Ascii Relations.
From stdpp Require Import gmap.
Import ListNotations.

Local Open Scope N_scope.

(** ** Strings *)

Definition str : Type := list N.
Definition bytes : Type := list N.

(** Code points of an ASCII literal. *)
Definition py (s : string) : str :=
  List.map N_of_ascii (list_ascii_of_string s).

(** [str.isspace] for one code point; the same set is [\s] of [re] on a
    [str] pattern. *)
Definition isspace (c : N) : bool :=
  ((0x09 <=? c) && (c <=? 0x0D)) || ((0x1C <=? c) && (c <=? 0x20))
  || (c =? 0x85) || (c =? 0xA0) || (c =? 0x1680)
  || ((0x2000 <=? c) && (c <=? 0x200A))
  || (c =? 0x2028) || (c =? 0x2029) || (c =? 0x202F) || (c =? 0x205F)
  || (c =? 0x3000).

Fixpoint dropWhile (p : N -> bool) (s : str) : str :=
  match s with
  | [] => []
  | c :: s' => if p c then dropWhile p s' else s
  end.

Definition lstrip (s : str) : str := dropWhile isspace s.
Definition rstrip (s : str) : str := rev (dropWhile isspace (rev s)).
(** [s.strip()] *)
Definition strip (s : str) : str := rstrip (lstrip s).

(** [sep.join(parts)] *)
Fixpoint join (sep : str) (parts : list str) : str :=
  match parts with
  | [] => []
  | [p] => p
  | p :: rest => p ++ sep ++ join sep rest
  end.

(** [re.sub(r"\s+", " ", s)]: every maximal run of whitespace becomes one
    space.  [in_run] tells that the previous character was whitespace. *)
Fixpoint sub_spaces (in_run : bool) (s : str) : str :=
  match s with
  | [] => []
  | c :: s' =>
      if isspace c
      then (if in_run then sub_spaces true s' else 0x20 :: sub_spaces true s')
      else c :: sub_spaces false s'
  end.

(** ** Exceptions *)

(** The messages of [MonitorError], kept with their arguments. *)
Inductive monitor_error : Type :=
| RequestTimedOut (timeout : N)          (* "Request timed out after {timeout} seconds" *)
| HttpError (status_code : N) (reason : str) (* "HTTP error {code}: {reason}" *)
| FailedToConnect (url : str)            (* "Failed to connect to {url}" *)
| RequestFailed (detail : str)           (* "Request failed: {e}" *)
| SelectorNoMatch (selector : str).      (* "Selector '{selector}' did not match any element" *)

Inductive exn : Type :=
| MonitorError (e : monitor_error)
| UnicodeEncodeError        (* str.encode on a lone surrogate *)
| UnicodeDecodeError        (* reading bytes that are no text *)
| SelectorSyntaxError       (* the selector engine on a malformed selector *)
| OSError.                  (* IOError is the same class *)

Inductive result (A : Type) : Type :=
| Ok (a : A)
| Raise (e : exn).
Arguments Ok {A} a.
Arguments Raise {A} e.

Definition rbind {A B} (r : result A) (k : A -> result B) : result B :=
  match r with
  | Ok a => k a
  | Raise e => Raise e
  end.

(** ** Fingerprinter: [compute_hash] *)

(** [content.encode("utf-8")] for one code point: the codec is strict, a
    surrogate raises [UnicodeEncodeError]. *)
Definition is_surrogate (c : N) : bool := (0xD800 <=? c) && (c <=? 0xDFFF).

Definition utf8_char (c : N) : option bytes :=
  if c <? 0x80 then Some [c]
  else if c <? 0x800 then Some [0xC0 + c / 64; 0x80 + c mod 64]
  else if is_surrogate c then None
  else if c <? 0x10000 then
    Some [0xE0 + c / 4096; 0x80 + (c / 64) mod 64; 0x80 + c mod 64]
  else
    Some [0xF0 + c / 262144; 0x80 + (c / 4096) mod 64;
          0x80 + (c / 64) mod 64; 0x80 + c mod 64].

Fixpoint encode_utf8 (s : str) : result bytes :=
  match s with
  | [] => Ok []
  | c :: s' =>
      match utf8_char c with
      | None => Raise UnicodeEncodeError
      | Some b => rbind (encode_utf8 s') (fun bs => Ok (b ++ bs))
      end
  end.

Module SHA256.

Definition w32 (x : N) : N := x mod 4294967296.
Definition add32 (a b : N) : N := w32 (a + b).
Definition rotr (n x : N) : N :=
  N.lor (N.shiftr x n) (w32 (N.shiftl x (32 - n))).
Definition shr (n x : N) : N := N.shiftr x n.
Definition not32 (x : N) : N := N.lxor x 0xFFFFFFFF.

Definition Ch (x y z : N) : N := N.lxor (N.land x y) (N.land (not32 x) z).
Definition Maj (x y z : N) : N :=
  N.lxor (N.lxor (N.land x y) (N.land x z)) (N.land y z).
Definition Sigma0 x := N.lxor (N.lxor (rotr 2 x) (rotr 13 x)) (rotr 22 x).
Definition Sigma1 x := N.lxor (N.lxor (rotr 6 x) (rotr 11 x)) (rotr 25 x).
Definition sigma0 x := N.lxor (N.lxor (rotr 7 x) (rotr 18 x)) (shr 3 x).
Definition sigma1 x := N.lxor (N.lxor (rotr 17 x) (rotr 19 x)) (shr 10 x).

(** The first 64 primes. *)
Definition is_prime (n : nat) : bool :=
  forallb (fun d => negb (Nat.eqb (Nat.modulo n d) 0)) (seq 2 (n - 2)).
Definition primes : list N :=
  List.map N.of_nat (List.filter is_prime (seq 2 310)).

(** Integer cube root, one bit at a time from the top. *)
Fixpoint cube_root (bits : nat) (n r : N) : N :=
  match bits with
  | O => r
  | S b =>
      let r' := r + 2 ^ N.of_nat b in
      if r' * r' * r' <=? n then cube_root b n r' else cube_root b n r
  end.

(** The round constants: the first 32 bits of the fractional parts of
    the cube roots of the first 64 primes. *)
Definition K : list N :=
  Eval vm_compute in
    List.map (fun p => w32 (cube_root 36 (p * 2 ^ 96) 0)) primes.

(** The eight working words. *)
Record state : Type := mk_state {
  ha : N; hb : N; hc : N; hd : N; he : N; hf : N; hg : N; hh : N }.

(** The initial hash value: the first 32 bits of the fractional parts of
    the square roots of the first 8 primes. *)
Definition frac_sqrt (p : N) : N := w32 (N.sqrt (p * 2 ^ 64)).
Definition H0 : state :=
  Eval vm_compute in
    mk_state (frac_sqrt 2) (frac_sqrt 3) (frac_sqrt 5) (frac_sqrt 7)
             (frac_sqrt 11) (frac_sqrt 13) (frac_sqrt 17) (frac_sqrt 19).

(** Big-endian word of four octets, and back. *)
Definition word_of (b0 b1 b2 b3 : N) : N :=
  b0 * 16777216 + b1 * 65536 + b2 * 256 + b3.
Definition octets_of (w : N) : bytes :=
  [(w / 16777216) mod 256; (w / 65536) mod 256; (w / 256) mod 256; w mod 256].

Fixpoint words_of (b : bytes) : list N :=
  match b with
  | b0 :: b1 :: b2 :: b3 :: rest => word_of b0 b1 b2 b3 :: words_of rest
  | _ => []
  end.

(** Message schedule; [w] holds the words computed so far, newest first. *)
Fixpoint schedule (n : nat) (w : list N) : list N :=
  match n with
  | O => w
  | S n' =>
      let x := add32 (add32 (sigma1 (nth 1 w 0)) (nth 6 w 0))
                     (add32 (sigma0 (nth 14 w 0)) (nth 15 w 0)) in
      schedule n' (x :: w)
  end.

Definition round (s : state) (kw : N * N) : state :=
  let t1 := add32 (add32 (add32 (hh s) (Sigma1 (he s)))
                         (add32 (Ch (he s) (hf s) (hg s)) (fst kw))) (snd kw) in
  let t2 := add32 (Sigma0 (ha s)) (Maj (ha s) (hb s) (hc s)) in
  mk_state (add32 t1 t2) (ha s) (hb s) (hc s) (add32 (hd s) t1) (he s) (hf s) (hg s).

Definition compress (h : state) (block : bytes) : state :=
  let w := rev (schedule 48 (rev (words_of block))) in
  let s := fold_left round (combine K w) h in
  mk_state (add32 (ha h) (ha s)) (add32 (hb h) (hb s)) (add32 (hc h) (hc s))
           (add32 (hd h) (hd s)) (add32 (he h) (he s)) (add32 (hf h) (hf s))
           (add32 (hg h) (hg s)) (add32 (hh h) (hh s)).

(** 0x80, zeros up to 56 modulo 64, then the bit length on eight octets. *)
Definition pad (m : bytes) : bytes :=
  let len := N.of_nat (List.length m) in
  let zeros := N.to_nat ((119 - len mod 64) mod 64) in
  let bits := 8 * len in
  m ++ [0x80] ++ repeat 0 zeros
    ++ octets_of ((bits / 4294967296) mod 4294967296) ++ octets_of (bits mod 4294967296).

Fixpoint blocks (fuel : nat) (h : state) (m : bytes) : state :=
  match fuel with
  | O => h
  | S fuel' =>
      match m with
      | [] => h
      | _ => blocks fuel' (compress h (firstn 64 m)) (skipn 64 m)
      end
  end.

Definition digest (m : bytes) : bytes :=
  let p := pad m in
  let h := blocks (List.length p) H0 p in
  octets_of (ha h) ++ octets_of (hb h) ++ octets_of (hc h) ++ octets_of (hd h)
    ++ octets_of (he h) ++ octets_of (hf h) ++ octets_of (hg h) ++ octets_of (hh h).

End SHA256.

(** [hexdigest()]: two lowercase hexadecimal digits per octet. *)
Definition hex_digit (d : N) : N := if d <? 10 then 48 + d else 87 + d.
Definition hexlify (b : bytes) : str :=
  flat_map (fun o => [hex_digit (o / 16); hex_digit (o mod 16)]) b.

(** [hashlib.sha256(content.encode("utf-8")).hexdigest()] *)
Definition compute_hash (content : str) : result str :=
  rbind (encode_utf8 content) (fun b => Ok (hexlify (SHA256.digest b))).

(** ** Normalizer: [extract_content] *)

(** The value of an attribute in [Tag.attrs]: a string, or the list of
    tokens of a multi-valued attribute such as [class]. *)
Inductive attr_value : Type :=
| AttrStr (v : str)
| AttrList (vs : list str).

(** The class the tree builder gives to the strings that stand inside a
    [template], [rt] or [rp] tag ([string_containers] of the builder; the
    strings of [script] and [style] leave the tree with their tags in the
    first removal loop). *)
Inductive string_class : Type :=
| TemplateString
| RubyTextString
| RubyParenthesisString.

(** The soup after [BeautifulSoup(html, "html.parser")]: tags, the plain
    strings ([NavigableString], also standing for [CData]), the strings
    of a container class ([ContainerString]), and the strings no
    [get_text] reads ([Comment], standing for comments, doctypes and
    declarations). *)
#[warnings="-register-all"]
Inductive node : Type :=
| Tag (name : str) (attrs : gmap str attr_value) (contents : list node)
| NavigableString (s : str)
| Comment (s : str)
| ContainerString (k : string_class) (s : str).

Definition soup : Type := list node.

(** What [find_all] tests on a tag: its name and its attributes. *)
Definition tag_test : Type := str -> gmap str attr_value -> bool.

(** [for tag in soup.find_all(...): tag.decompose()]: every tag that
    passes the test leaves the tree with all it contains. *)
Fixpoint decompose (p : tag_test) (x : node) : list node :=
  match x with
  | Tag n a cs => if p n a then [] else [Tag n a (flat_map (decompose p) cs)]
  | NavigableString s => [NavigableString s]
  | Comment s => [Comment s]
  | ContainerString k s => [ContainerString k s]
  end.

Definition decompose_all (p : tag_test) (t : soup) : soup :=
  flat_map (decompose p) t.

(** [find_all(["script", "style", "noscript", "iframe"])] *)
Definition dynamic_tags : list str :=
  [py "script"; py "style"; py "noscript"; py "iframe"].
Definition is_dynamic_tag : tag_test :=
  fun n _ => bool_decide (n ∈ dynamic_tags).

(** One character of the pattern, a lowercase ASCII letter, against one
    of the text under [re.I]: both cases of the letter, and the
    characters that fold to it (U+212A for k, U+017F for s, U+0130 and
    U+0131 for i). *)
Definition ci_eq (p c : N) : bool :=
  (c =? p) || (c =? p - 32)
  || ((p =? 0x6B) && (c =? 0x212A))
  || ((p =? 0x73) && (c =? 0x17F))
  || ((p =? 0x69) && ((c =? 0x130) || (c =? 0x131))).

Fixpoint match_here (pat s : str) : bool :=
  match pat, s with
  | [], _ => true
  | _ :: _, [] => false
  | p :: pat', c :: s' => ci_eq p c && match_here pat' s'
  end.

(** [pattern.search(s)] for a literal pattern. *)
Fixpoint search (pat s : str) : bool :=
  match_here pat s ||
  match s with
  | [] => false
  | _ :: s' => search pat s'
  end.

(** [re.compile(r"ad|tracking|analytics", re.I).search] *)
Definition noise_re (s : str) : bool :=
  search (py "ad") s || search (py "tracking") s || search (py "analytics") s.

(** How [find_all(attrs={"class": regex})] holds an attribute value
    against the pattern: each token, then the tokens joined by a space. *)
Definition value_matches (v : option attr_value) : bool :=
  match v with
  | None => false
  | Some (AttrStr s) => noise_re s
  | Some (AttrList vs) => existsb noise_re vs || noise_re (join (py " ") vs)
  end.

Definition has_noise_class : tag_test :=
  fun _ a => value_matches (a !! py "class").

(** [find_all(attrs={name: True})]: the attribute is there. *)
Definition has_attr (name : str) : tag_test :=
  fun _ a => bool_decide (is_Some (a !! name)).

(** [interesting_string_types] of a tag of the given name: the class of
    string [get_text] reads when called on that tag.  [None] is the
    default, the plain strings; a [template], [rt] or [rp] tag reads the
    strings of its own class instead. *)
Definition interesting_string_types (name : str) : option string_class :=
  if bool_decide (name = py "template") then Some TemplateString
  else if bool_decide (name = py "rt") then Some RubyTextString
  else if bool_decide (name = py "rp") then Some RubyParenthesisString
  else None.

(** The same for the object [get_text] is called on: the soup itself
    reads the plain strings. *)
Definition scope_types (x : node) : option string_class :=
  match x with
  | Tag n _ _ => interesting_string_types n
  | _ => None
  end.

Definition string_class_eqb (k k' : string_class) : bool :=
  match k, k' with
  | TemplateString, TemplateString
  | RubyTextString, RubyTextString
  | RubyParenthesisString, RubyParenthesisString => true
  | _, _ => false
  end.

(** The strings of the wanted class under a node, in document order
    ([_all_strings]). *)
Fixpoint all_strings (types : option string_class) (x : node) : list str :=
  match x with
  | Tag _ _ cs => flat_map (all_strings types) cs
  | NavigableString s =>
      match types with None => [s] | Some _ => [] end
  | Comment _ => []
  | ContainerString k s =>
      match types with
      | Some k' => if string_class_eqb k k' then [s] else []
      | None => []
      end
  end.

Definition nonempty (s : str) : bool :=
  match s with [] => false | _ => true end.

(** [get_text(separator=sep, strip=True)] over the nodes of [scope], for
    the class of string the object it is called on reads. *)
Definition get_text (sep : str) (types : option string_class) (scope : soup) : str :=
  join sep (List.filter nonempty
              (List.map strip (flat_map (all_strings types) scope))).

(** The tags of the tree in document order, each with the path of child
    indices that leads to it. *)
Fixpoint tags_at (path : list nat) (x : node) : list (list nat * node) :=
  match x with
  | Tag _ _ cs =>
      (path, x) ::
      (fix children (i : nat) (l : list node) : list (list nat * node) :=
         match l with
         | [] => []
         | c :: l' => tags_at (path ++ [i]) c ++ children (S i) l'
         end) 0%nat cs
  | _ => []
  end.

Fixpoint tags_from (path : list nat) (i : nat) (l : soup) : list (list nat * node) :=
  match l with
  | [] => []
  | c :: l' => tags_at (path ++ [i]) c ++ tags_from path (S i) l'
  end.

Definition tags (t : soup) : list (list nat * node) := tags_from [] 0%nat t.

(** What a selector decides: whether the tag at a path of a tree matches. *)
Definition tag_matcher : Type := soup -> list nat -> bool.

(** The selector engine behind [select_one]: it reads the selector, and
    raises [SelectorSyntaxError] ([None] here) on one it cannot parse. *)
Definition matcher : Type := str -> option tag_matcher.

(** [soup.select(selector)] once the selector is read: the matching
    tags, in document order. *)
Definition select (m : tag_matcher) (t : soup) : list (list nat * node) :=
  List.filter (fun pe => m t (fst pe)) (tags t).

(** [soup.select_one(selector)] *)
Definition select_one (css : matcher) (selector : str) (t : soup)
  : result (option node) :=
  match css selector with
  | None => Raise SelectorSyntaxError
  | Some m =>
      Ok match select m t with
         | [] => None
         | pe :: _ => Some (snd pe)
         end
  end.

(** Lines 69 to 81: the four removal loops, in their order. *)
Definition remove_noise (t : soup) : soup :=
  let t := decompose_all is_dynamic_tag t in
  let t := decompose_all has_noise_class t in
  let t := decompose_all (has_attr (py "data-timestamp")) t in
  decompose_all (has_attr (py "data-nonce")) t.

(** Line 93: [re.sub(r"\s+", " ", content).strip()] *)
Definition normalize_whitespace (content : str) : str :=
  strip (sub_spaces false content).

(** Lines 69 to 95 of [extract_content], on the soup line 67 has built.
    An empty selector is false in [if selector:], like [None]. *)
Definition extract_soup (css : matcher) (t : soup) (selector : option str)
  : result str :=
  let t := remove_noise t in
  rbind
    match selector with
    | Some (c :: sel) =>
        rbind (select_one css (c :: sel) t) (fun element =>
          match element with
          | None => Raise (MonitorError (SelectorNoMatch (c :: sel)))
          | Some element =>
              Ok (get_text (py " ") (scope_types element) [element])
          end)
    | _ => Ok (get_text (py " ") None t)
    end
    (fun content => Ok (normalize_whitespace content)).

(** [BeautifulSoup(html, "html.parser")], by the tree it builds.  The
    parser is taken on the documents it accepts: on a few malformed
    declarations (such as "<![foo]>") the call of line 67 raises and there
    is no tree; what is proved of a parsed document says nothing of
    those. *)
Definition html_parser : Type := str -> soup.

(** [extract_content(html, selector)] *)
Definition extract_content (parse : html_parser) (css : matcher)
    (html : str) (selector : option str) : result str :=
  extract_soup css (parse html) selector.

(** A selector engine small enough to run: it reads type selectors (a
    name: a letter or an underscore, then letters, digits, hyphens and
    underscores), which match the tags of that name, whatever the case of
    the letters. *)
Fixpoint node_at (t : soup) (path : list nat) : option node :=
  match path with
  | [] => None
  | [i] => nth_error t i
  | i :: path' =>
      match nth_error t i with
      | Some (Tag _ _ cs) => node_at cs path'
      | _ => None
      end
  end.

Definition is_name_char (c : N) : bool :=
  ((97 <=? c) && (c <=? 122)) || ((65 <=? c) && (c <=? 90))
  || ((48 <=? c) && (c <=? 57)) || (c =? 45) || (c =? 95).

Definition is_name_start (c : N) : bool :=
  ((97 <=? c) && (c <=? 122)) || ((65 <=? c) && (c <=? 90)) || (c =? 95).

(** ASCII lowercase of a character. *)
Definition ascii_lower (c : N) : N :=
  if (65 <=? c) && (c <=? 90) then c + 32 else c.

Definition by_name : matcher :=
  fun selector =>
    match selector with
    | c :: rest =>
        if is_name_start c && forallb is_name_char rest
        then Some (fun t path =>
                     match node_at t path with
                     | Some (Tag n _ _) =>
                         bool_decide (List.map ascii_lower n
                                      = List.map ascii_lower selector)
                     | _ => false
                     end)
        else None
    | [] => None
    end.

Definition el (name : string) (cs : soup) : node := Tag (py name) ∅ cs.
Definition el_class (name : string) (cls : list string) (cs : soup) : node :=
  Tag (py name) {[ py "class" := AttrList (List.map py cls) ]} cs.
Definition txt (s : string) : node := NavigableString (py s).

(** <html><body><script>alert('x')</script><p>Content</p></body></html> *)
Definition page_with_script : soup :=
  [el "html" [el "body" [el "script" [txt "alert('x')"]; el "p" [txt "Content"]]]].

(** <html><body><p>Content</p></body></html> *)
Definition page_plain : soup :=
  [el "html" [el "body" [el "p" [txt "Content"]]]].


(** ** Fetcher: [fetch_page_content] *)

Record response : Type := {
  status_code : N;
  reason : str;
  text : str }.

(** What [requests.get(url, headers=headers, timeout=timeout)] comes to,
    redirects followed: a final response, or one of the exceptions the
    function tells apart. *)
Inductive request_outcome : Type :=
| Responded (r : response)
| Timeout                          (* requests.exceptions.Timeout *)
| ConnectionError                  (* ConnectionError that is no Timeout *)
| RequestException (detail : str). (* any other RequestException *)

Definition http : Type := str -> N -> request_outcome.

(** [response.raise_for_status()] raises [HTTPError] for the client and
    server error codes. *)
Definition raises_for_status (r : response) : bool :=
  (400 <=? status_code r) && (status_code r <? 600).

Definition fetch_page_content (get : http) (url : str) (timeout : N)
  : result str :=
  match get url timeout with
  | Responded r =>
      if raises_for_status r
      then Raise (MonitorError (HttpError (status_code r) (reason r)))
      else Ok (text r)
  | Timeout => Raise (MonitorError (RequestTimedOut timeout))
  | ConnectionError => Raise (MonitorError (FailedToConnect url))
  | RequestException detail => Raise (MonitorError (RequestFailed detail))
  end.

(** ** Baseline store: [load_previous_hash], [save_hash] *)

(** What the file-system calls find at a path.  Nothing is at a path
    that is not in the map; a path with an entry, of whatever kind, stands
    in a directory that is there.  Paths are the strings [Path(path)]
    keeps: components parted by single "/". *)
Inductive entry : Type :=
| File (payload : str) (readable writable : bool) (* a regular file and its text *)
| Undecodable (writable : bool) (* a regular file, readable, whose bytes
                                   are not text in the encoding in use *)
| Directory
| Blocked       (* nothing there, and nothing can be created: the
                   directory refuses writing *)
| Unreachable.  (* [stat] fails: a parent refuses to be searched *)

Abbreviation filesystem := (gmap str entry).

(** The monad of the functions that touch the store: the file system is
    threaded, an exception ends the computation. *)
Definition io (A : Type) : Type := filesystem -> result A * filesystem.

Definition ret {A} (a : A) : io A := fun fs => (Ok a, fs).
Definition throw {A} (e : exn) : io A := fun fs => (Raise e, fs).
Definition bind {A B} (m : io A) (k : A -> io B) : io B :=
  fun fs =>
    match m fs with
    | (Ok a, fs') => k a fs'
    | (Raise e, fs') => (Raise e, fs')
    end.
Definition lift {A} (r : result A) : io A := fun fs => (r, fs).

Notation "x <- m ;; k" := (bind m (fun x => k))
  (at level 100, m at next level, right associativity).
Notation "m ;;; k" := (bind m (fun _ => k))
  (at level 100, right associativity).

(** [try: body except (IOError, OSError): handler] *)
Definition try_except_OSError {A} (body handler : io A) : io A :=
  fun fs =>
    match body fs with
    | (Raise OSError, fs') => handler fs'
    | other => other
    end.

(** [hash_path.exists()]: [stat], with "no such entry" read as [False]. *)
Definition path_exists (path : str) : io bool :=
  fun fs =>
    match fs !! path with
    | None | Some Blocked => (Ok false, fs)
    | Some Unreachable => (Raise OSError, fs)
    | Some (File _ _ _) | Some (Undecodable _) | Some Directory => (Ok true, fs)
    end.

(** Text mode reads with universal newlines: "\r\n" and "\r" come out
    as "\n". *)
Fixpoint universal_newlines (s : str) : str :=
  match s with
  | [] => []
  | c :: s' =>
      if c =? 13
      then 10 :: match s' with
                 | d :: s'' => if d =? 10 then universal_newlines s''
                               else universal_newlines s'
                 | [] => []
                 end
      else c :: universal_newlines s'
  end.

(** [hash_path.read_text()] *)
Definition read_text (path : str) : io str :=
  fun fs =>
    match fs !! path with
    | Some (File payload true _) => (Ok (universal_newlines payload), fs)
    | Some (Undecodable _) => (Raise UnicodeDecodeError, fs)
    | _ => (Raise OSError, fs)
    end.

(** The directories above a path, outermost first: "a" and "a/b" for
    "a/b/c.txt", "/a" for "/a/c.txt", none for "c.txt". *)
Fixpoint parents_from (seen rest : str) : list str :=
  match rest with
  | [] => []
  | c :: rest' =>
      (if (c =? 47) && nonempty seen then [seen] else [])
      ++ parents_from (seen ++ [c]) rest'
  end.

Definition parents (path : str) : list str := parents_from [] path.

(** [os.mkdir] down the directories above a path: one that is there is
    passed ([exist_ok]), one that is missing is made, and anything else
    in the place of a directory raises. *)
Fixpoint make_dirs (dirs : list str) (fs : filesystem)
  : result unit * filesystem :=
  match dirs with
  | [] => (Ok tt, fs)
  | d :: rest =>
      match fs !! d with
      | None => make_dirs rest (<[d := Directory]> fs)
      | Some Directory => make_dirs rest fs
      | Some _ => (Raise OSError, fs)
      end
  end.

(** [hash_path.parent.mkdir(parents=True, exist_ok=True)]: with
    something at the path its directory is there and nothing is made;
    with nothing at the path every missing directory above it is made. *)
Definition mkdir_parents (path : str) : io unit :=
  fun fs =>
    match fs !! path with
    | Some Blocked | Some Unreachable => (Raise OSError, fs)
    | Some _ => (Ok tt, fs)
    | None => make_dirs (parents path) fs
    end.

(** [hash_path.write_text(data)]: the file is opened for writing, which
    creates it or empties it, then the text is encoded (UTF-8) and
    written; a text that does not encode leaves the file empty. *)
Definition write_text (path : str) (data : str) : io unit :=
  fun fs =>
    let opened (r : bool) :=
      match encode_utf8 data with
      | Ok _ => (Ok tt, <[path := File data r true]> fs)
      | Raise e => (Raise e, <[path := File [] r true]> fs)
      end in
    match fs !! path with
    | None => opened true
    | Some (File _ r true) => opened r
    | Some (Undecodable true) => opened true
    | _ => (Raise OSError, fs)
    end.

Definition load_previous_hash (path : str) : io (option str) :=
  try_except_OSError
    (found <- path_exists path ;;
     if found
     then (s <- read_text path ;; ret (Some (strip s)))
     else ret None)
    (ret None).

Definition save_hash (path : str) (hash_value : str) : io unit :=
  mkdir_parents path ;;;
  write_text path hash_value.

(** ** Change evaluator: [check_for_changes] *)

Record Config : Type := {
  monitor_url : str;
  email_from : str;
  email_to : str;
  email_password : str;
  check_selector : option str;
  email_smtp_host : str;
  email_smtp_port : N;
  hash_storage_path : str }.

(** The three outcomes of an evaluation and the message of each. *)
Inductive reason_kind : Type := FirstRun | Unchanged | Changed.

Definition message (r : reason_kind) : str :=
  match r with
  | FirstRun => py "First run - baseline hash saved"
  | Unchanged => py "No changes detected"
  | Changed => py "Change detected on monitored page"
  end.

Definition str_eqb (a b : str) : bool := bool_decide (a = b).

Definition check_for_changes (get : http) (parse : html_parser) (css : matcher)
    (config : Config) : io (bool * str) :=
  html <- lift (fetch_page_content get (monitor_url config) 30) ;;
  content <- lift (extract_content parse css html (check_selector config)) ;;
  current_hash <- lift (compute_hash content) ;;
  previous_hash <- load_previous_hash (hash_storage_path config) ;;
  match previous_hash with
  | None =>
      save_hash (hash_storage_path config) current_hash ;;;
      ret (false, message FirstRun)
  | Some previous =>
      if str_eqb current_hash previous
      then ret (false, message Unchanged)
      else
        save_hash (hash_storage_path config) current_hash ;;;
        ret (true, message Changed)
  end.

(** ** Vocabulary of the properties *)

(** The words of a text: its maximal runs of characters that are not
    whitespace, in order ([str.split()]). *)
Definition starts_word (s : str) : bool :=
  match s with
  | c :: _ => negb (isspace c)
  | [] => false
  end.

Definition cons_head (c : N) (ws : list str) : list str :=
  match ws with
  | w :: rest => (c :: w) :: rest
  | [] => [[c]]
  end.

Fixpoint words (s : str) : list str :=
  match s with
  | [] => []
  | c :: s' =>
      if isspace c then words s'
      else if starts_word s' then cons_head c (words s')
      else [c] :: words s'
  end.

(** The words of the strings of a class in a tree, in document order. *)
Definition text_words (types : option string_class) (t : soup) : list str :=
  flat_map words (flat_map (all_strings types) t).

Definition blank (s : str) : bool := forallb isspace s.

Definition starts_space (s : str) : bool :=
  match s with
  | c :: _ => isspace c
  | [] => false
  end.

Fixpoint ends_space (s : str) : bool :=
  match s with
  | [] => false
  | [c] => isspace c
  | _ :: s' => ends_space s'
  end.

(** Two pieces of text that do not run into one word when put side by
    side: one is empty, or whitespace stands where they meet. *)
Definition spaced (x y : str) : bool :=
  negb (nonempty x) || negb (nonempty y) || ends_space x || starts_space y.

(** A tag the removal loops take out, whichever loop does. *)
Definition is_noise : tag_test :=
  fun n a =>
    is_dynamic_tag n a || has_noise_class n a
    || has_attr (py "data-timestamp") n a || has_attr (py "data-nonce") n a.

(** A change of the tree at one place: among the children of the
    document or of any tag, the run [l] of siblings becomes [l']. *)
Inductive in_context (R : soup -> soup -> Prop) : soup -> soup -> Prop :=
| ctx_here pre l l' post :
    R l l' -> in_context R (pre ++ l ++ post) (pre ++ l' ++ post)
| ctx_below pre n a cs cs' post :
    in_context R cs cs' ->
    in_context R (pre ++ Tag n a cs :: post) (pre ++ Tag n a cs' :: post).


(** One noise tag more, between two siblings. *)
Inductive noise_added : soup -> soup -> Prop :=
| noise_added_intro n a cs :
    is_noise n a = true -> noise_added [] [Tag n a cs].

(** One noise tag more, inside a run of text, which it cuts in two;
    [ok] says which cuts are considered. *)
Inductive noise_splits (ok : str -> str -> bool) : soup -> soup -> Prop :=
| noise_splits_intro x y n a cs :
    is_noise n a = true -> ok x y = true ->
    noise_splits ok [NavigableString (x ++ y)]
                    [NavigableString x; Tag n a cs; NavigableString y].

(** Two trees with the same tags and the same words in each string, that
    differ by the whitespace of the strings and by strings of whitespace
    alone. *)
Inductive same_layout : soup -> soup -> Prop :=
| layout_nil : same_layout [] []
| layout_blank_l s t t' :
    blank s = true -> same_layout t t' ->
    same_layout (NavigableString s :: t) t'
| layout_blank_r s t t' :
    blank s = true -> same_layout t t' ->
    same_layout t (NavigableString s :: t')
| layout_string s s' t t' :
    words s = words s' -> same_layout t t' ->
    same_layout (NavigableString s :: t) (NavigableString s' :: t')
| layout_comment c t t' :
    same_layout t t' -> same_layout (Comment c :: t) (Comment c :: t')
| layout_container k s s' t t' :
    words s = words s' -> same_layout t t' ->
    same_layout (ContainerString k s :: t) (ContainerString k s' :: t')
| layout_tag n a cs cs' t t' :
    same_layout cs cs' -> same_layout t t' ->
    same_layout (Tag n a cs :: t) (Tag n a cs' :: t').

Definition any_cut (x y : str) : bool := true.

(** Documents that differ only in noise tags, wherever they stand, or in
    whitespace layout. *)
Definition differ_in_noise_or_layout : soup -> soup -> Prop :=
  clos_refl_sym_trans soup
    (fun t t' => in_context noise_added t t'
                 \/ in_context (noise_splits any_cut) t t'
                 \/ same_layout t t').

(** Documents that differ only in noise tags standing between siblings. *)
Definition differ_in_noise_between : soup -> soup -> Prop :=
  clos_refl_sym_trans soup (in_context noise_added).

(** Documents that differ only in noise tags that do not stand between
    two words written as one, or in whitespace layout. *)
Definition differ_in_spaced_noise_or_layout : soup -> soup -> Prop :=
  clos_refl_sym_trans soup
    (fun t t' => in_context noise_added t t'
                 \/ in_context (noise_splits spaced) t t'
                 \/ same_layout t t').

(** A parser known on the listed documents; any other text has an empty
    soup. *)
Fixpoint parse_of (pages : list (str * soup)) (html : str) : soup :=
  match pages with
  | [] => []
  | (h, t) :: rest => if str_eqb h html then t else parse_of rest html
  end.

(** Induction on a tree, with the property known for the children. *)
Fixpoint node_induction (P : node -> Prop)
    (HTag : forall n a cs, Forall P cs -> P (Tag n a cs))
    (HString : forall s, P (NavigableString s))
    (HComment : forall s, P (Comment s))
    (HContainer : forall k s, P (ContainerString k s)) (x : node) : P x :=
  match x with
  | Tag n a cs =>
      HTag n a cs
        ((fix all (l : list node) : Forall P l :=
            match l with
            | [] => @List.Forall_nil _ P
            | c :: l' =>
                @List.Forall_cons _ P c l'
                  (node_induction P HTag HString HComment HContainer c) (all l')
            end) cs)
  | NavigableString s => HString s
  | Comment s => HComment s
  | ContainerString k s => HContainer k s
  end.

(** Every directory above the path is there, or is missing and can be
    made. *)
Definition parents_ready (path : str) (fs : filesystem) : Prop :=
  Forall (fun d => fs !! d = None \/ fs !! d = Some Directory) (parents path).

(** The store takes a write at the path: nothing is at the path and its
    directory is there or can be made, or the path holds a file that can
    be written. *)
Definition accepts_write (path : str) (fs : filesystem) : Prop :=
  (fs !! path = None /\ parents_ready path fs)
  \/ exists payload r, fs !! path = Some (File payload r true).

(** A page, a server that answers with it, and a configuration, to run
    the pipeline on. *)
Definition html_plain : str := py "<html><body><p>Content</p></body></html>".
Definition html_with_script : str :=
  py "<html><body><script>alert('x')</script><p>Content</p></body></html>".

Definition demo_parse : html_parser :=
  parse_of [(html_plain, page_plain); (html_with_script, page_with_script)].

Definition serve (status : N) (why : string) (body : str) : http :=
  fun _ _ => Responded {| status_code := status; reason := py why; text := body |}.

Definition demo_config : Config := {|
  monitor_url := py "https://example.org/news";
  email_from := py "monitor@example.org";
  email_to := py "me@example.org";
  email_password := py "secret";
  check_selector := None;
  email_smtp_host := py "smtp.gmail.com";
  email_smtp_port := 465;
  hash_storage_path := py "last_hash.txt" |}.

Definition hash_of_Content : str :=
  py "47bd29075f8b8019f0beec6d86beda7c9bf67aaf05053dcbe0b3bcb63968517f".

(** The same configuration with the baseline two directories down. *)
Definition nested_config : Config := {|
  monitor_url := py "https://example.org/news";
  email_from := py "monitor@example.org";
  email_to := py "me@example.org";
  email_password := py "secret";
  check_selector := None;
  email_smtp_host := py "smtp.gmail.com";
  email_smtp_port := 465;
  hash_storage_path := py "data/seen/last_hash.txt" |}.

(** <p>a</p><template>T</template><ruby>b<rp>(</rp><rt>c</rt></ruby> *)
Definition page_with_template : soup :=
  [el "p" [txt "a"];
   el "template" [ContainerString TemplateString (py "T")];
   el "ruby" [txt "b"; el "rp" [ContainerString RubyParenthesisString (py "(")];
              el "rt" [ContainerString RubyTextString (py "c")]]].

(** The space [sub_spaces] leaves after the last word of a text that
    ends in whitespace. *)
Definition trailing_space (s : str) : str :=
  match words s with
  | [] => []
  | _ :: _ => if ends_space s then [32] else []
  end.

(** <p>Hello<script>x</script>World</p> and <p>HelloWorld</p> *)
Definition html_split_word : str := py "<p>Hello<script>x</script>World</p>".
Definition html_one_word : str := py "<p>HelloWorld</p>".
Definition page_split_word : soup :=
  [el "p" [txt "Hello"; el "script" [txt "x"]; txt "World"]].
Definition page_one_word : soup := [el "p" [txt "HelloWorld"]].

Definition word_parse : html_parser :=
  parse_of [(html_split_word, page_split_word); (html_one_word, page_one_word)].


Definition is_lower_hex (c : N) : bool :=
  ((48 <=? c) && (c <=? 57)) || ((97 <=? c) && (c <=? 102)).

(** A digest: 64 lowercase hexadecimal digits. *)
Definition is_digest (h : str) : Prop :=
  List.length h = 64%nat /\ forallb is_lower_hex h = true.

(** A text without any whitespace. *)
Definition whitespace_free (s : str) : Prop := existsb isspace s = false.

(** A path where a text can be written and then read: nothing is at the
    path and its directory is there or can be made, or a file is at the
    path that can be written and read (its bytes, which the write
    replaces, need not be text). *)
Definition usable (path : str) (fs : filesystem) : Prop :=
  (fs !! path = None /\ parents_ready path fs)
  \/ (exists payload, fs !! path = Some (File payload true true))
  \/ fs !! path = Some (Undecodable true).

(** The node at a path below a node; the empty path is the node itself. *)
Definition node_under (x : node) (path : list nat) : option node :=
  match path, x with
  | [], _ => Some x
  | _ :: _, Tag _ _ cs => node_at cs path
  | _ :: _, _ => None
  end.

(** ** Configuration: [validate_config] (src/config.py) *)

(** What a function of the configuration module comes to: it returns, or
    raises [ConfigError] with a message. *)
Inductive checked (A : Type) : Type :=
| Passed (a : A)
| ConfigError (message : str).
Arguments Passed {A} a.
Arguments ConfigError {A} message.

(** [s.startswith(prefix)] *)
Fixpoint startswith (prefix s : str) : bool :=
  match prefix, s with
  | [], _ => true
  | _ :: _, [] => false
  | p :: prefix', c :: s' => (c =? p) && startswith prefix' s'
  end.

(** ["@" in s] *)
Definition has_at (s : str) : bool := existsb (N.eqb 64) s.

(** [validate_config(config)]; the port of [Config] is a natural number
    here. *)
Definition validate_config (config : Config) : checked unit :=
  if negb (startswith (py "http://") (monitor_url config)
           || startswith (py "https://") (monitor_url config))
  then ConfigError (py "Invalid MONITOR_URL: must start with http:// or https://")
  else if negb (has_at (email_from config))
  then ConfigError (py "Invalid EMAIL_FROM: must be a valid email address")
  else if negb (has_at (email_to config))
  then ConfigError (py "Invalid EMAIL_TO: must be a valid email address")
  else if negb ((1 <=? email_smtp_port config) && (email_smtp_port config <=? 65535))
  then ConfigError (py "Invalid EMAIL_SMTP_PORT: must be between 1 and 65535")
  else Passed tt.

(** ** Notifier: [send_email], [notify_change] (src/notifier.py) *)

(** What sending a message comes to: the session ends well, or one of the
    exceptions [send_email] tells apart is raised inside the [try], or an
    exception is raised before it, while the message is built. *)
Inductive mail_outcome : Type :=
| Delivered
| SMTPAuthenticationError
| SMTPException (detail : str)     (* any other SMTPException *)
| OtherException (detail : str)    (* any other Exception inside the try *)
| NotBuilt.                        (* raised before the try *)

(** The mail system: the outcome for a configuration, a subject and a
    body. *)
Definition mailer : Type := Config -> str -> str -> mail_outcome.

(** What a run writes and sends. *)
Inductive event : Type :=
| Log (message : str)         (* [log(message)]: the line, after its time stamp *)
| Print (line : str)          (* [print(line)] *)
| Session (config : Config) (subject body : str).
                              (* the call [smtplib.SMTP_SSL(...)] for the message *)

(** A call that returns a value or lets an exception through. *)
Inductive returned (A : Type) : Type :=
| Returns (a : A)
| Escapes.
Arguments Returns {A} a.
Arguments Escapes {A}.

Definition send_email (mail : mailer) (config : Config) (subject body : str)
  : returned bool * list event :=
  match mail config subject body with
  | NotBuilt => (Escapes, [])
  | Delivered => (Returns true, [Session config subject body])
  | SMTPAuthenticationError =>
      (Returns false,
       [Session config subject body;
        Print (py "ERROR: SMTP authentication failed. Check your email and password.");
        Print (py "       If using Gmail, ensure you're using an App Password.")])
  | SMTPException detail =>
      (Returns false,
       [Session config subject body;
        Print (py "ERROR: Failed to send email: " ++ detail)])
  | OtherException detail =>
      (Returns false,
       [Session config subject body;
        Print (py "ERROR: Unexpected error sending email: " ++ detail)])
  end.

(** The subject and the body of the notification; [timestamp] is
    [datetime.now().strftime("%Y-%m-%d %H:%M:%S")]. *)
Definition notification_subject : str := 0x1F514 :: py " Developer Update Detected".

Definition notification_body (url timestamp : str) : str :=
  py "A change has been detected on the monitored page." ++ [10; 10]
  ++ py "URL: " ++ url ++ [10]
  ++ py "Detected at: " ++ timestamp ++ [10; 10]
  ++ py "Visit the page to see what's new!" ++ [10].

Definition notify_change (mail : mailer) (timestamp : str) (config : Config)
    (url : str) : returned bool * list event :=
  send_email mail config notification_subject (notification_body url timestamp).

(** ** Entry point: [main] (main.py) *)

(** [str(n)] for a natural number. *)
Fixpoint decimal_digits (fuel : nat) (n : N) (acc : str) : str :=
  match fuel with
  | O => acc
  | S fuel' =>
      let acc' := (48 + n mod 10) :: acc in
      if n / 10 =? 0 then acc' else decimal_digits fuel' (n / 10) acc'
  end.
Definition decimal (n : N) : str := decimal_digits (S (N.to_nat (N.log2 n))) n [].

(** [str(e)] for a [MonitorError]. *)
Definition monitor_error_message (e : monitor_error) : str :=
  match e with
  | RequestTimedOut timeout =>
      py "Request timed out after " ++ decimal timeout ++ py " seconds"
  | HttpError code why => py "HTTP error " ++ decimal code ++ py ": " ++ why
  | FailedToConnect url => py "Failed to connect to " ++ url
  | RequestFailed detail => py "Request failed: " ++ detail
  | SelectorNoMatch selector =>
      py "Selector '" ++ selector ++ py "' did not match any element"
  end.

(** How a run of [main] ends: with the exit code it returns, or with an
    exception that no handler of [main] catches. *)
Inductive ending : Type :=
| Exit (code : N)
| Uncaught (e : exn)
| UncaughtInNotifier.

Record run : Type := {
  ended : ending;
  files : filesystem;
  output : list event }.

(** [main()].  [load_config] is the outcome of the call of that name in
    the environment of the process. *)
Definition main (load_config : checked Config) (get : http) (parse : html_parser)
    (css : matcher) (mail : mailer) (timestamp : str) (fs : filesystem) : run :=
  let started := [Log (py "Starting Developer Activity Monitor")] in
  match load_config with
  | ConfigError e =>
      {| ended := Exit 1; files := fs;
         output := started ++ [Log (py "Configuration error: " ++ e)] |}
  | Passed config =>
      match validate_config config with
      | ConfigError e =>
          {| ended := Exit 1; files := fs;
             output := started ++ [Log (py "Configuration error: " ++ e)] |}
      | Passed _ =>
          let monitoring :=
            started ++ [Log (py "Monitoring URL: " ++ monitor_url config)] in
          match check_for_changes get parse css config fs with
          | (Raise (MonitorError e), fs') =>
              {| ended := Exit 1; files := fs';
                 output := monitoring
                           ++ [Log (py "Monitor error: " ++ monitor_error_message e)] |}
          | (Raise e, fs') =>
              {| ended := Uncaught e; files := fs'; output := monitoring |}
          | (Ok (has_changed, message), fs') =>
              let checked := monitoring ++ [Log message] in
              if has_changed then
                let sending := checked ++ [Log (py "Sending notification email...")] in
                match notify_change mail timestamp config (monitor_url config) with
                | (Escapes, printed) =>
                    {| ended := UncaughtInNotifier; files := fs';
                       output := sending ++ printed |}
                | (Returns true, printed) =>
                    {| ended := Exit 0; files := fs';
                       output := sending ++ printed
                                 ++ [Log (py "Notification sent successfully");
                                     Log (py "Monitor completed successfully")] |}
                | (Returns false, printed) =>
                    {| ended := Exit 1; files := fs';
                       output := sending ++ printed
                                 ++ [Log (py "Failed to send notification")] |}
                end
              else
                {| ended := Exit 0; files := fs';
                   output := checked
                             ++ [Log (py "No notification needed");
                                 Log (py "Monitor completed successfully")] |}
          end
      end
  end.

(** ** Vocabulary of the further properties *)

(** A noise tag stands at the node or somewhere below it. *)
Fixpoint has_noise (x : node) : bool :=
  match x with
  | Tag n a cs => is_noise n a || existsb has_noise cs
  | _ => false
  end.

(** No two whitespace characters side by side. *)
Fixpoint no_double_space (s : str) : bool :=
  match s with
  | [] => true
  | c :: s' => negb (isspace c && starts_space s') && no_double_space s'
  end.

(** A word: not empty, no whitespace in it. *)
Definition is_word (w : str) : Prop := w <> [] /\ whitespace_free w.

(** The four requirements of [validate_config]. *)
Definition url_has_scheme (config : Config) : Prop :=
  (exists rest, monitor_url config = py "http://" ++ rest)
  \/ (exists rest, monitor_url config = py "https://" ++ rest).
Definition port_in_range (config : Config) : Prop :=
  1 <= email_smtp_port config <= 65535.

(** No SMTP session among the events. *)
Definition no_session (events : list event) : Prop :=
  forall config subject body, ~ In (Session config subject body) events.

(** * Properties *)

(** ** Values computed by the embedding *)

Example sha_empty :
  compute_hash (py "") = Ok (py "e3b0c44298fc1c149afbf4c8996fb92427ae41e4649b934ca495991b7852b855").
Proof. vm_compute. reflexivity. Qed.

Example sha_abc :
  compute_hash (py "abc") = Ok (py "ba7816bf8f01cfea414140de5dae2223b00361a396177a9cb410ff61f20015ad").
Proof. vm_compute. reflexivity. Qed.

Example sha_two_blocks :
  compute_hash (repeat 0x61 119) = Ok (py "31eba51c313a5c08226adf18d4a359cfdfd8d2e816b13f4af952f7ea6584dcfb").
Proof. vm_compute. reflexivity. Qed.

(** "你好世界 🌍" of the test suite. *)
Example sha_unicode :
  compute_hash [0x4F60; 0x597D; 0x4E16; 0x754C; 0x20; 0x1F30D]
  = Ok (py "530c5734242219d3789dcb70fa375c7e405108a3863d87e9845c702d6dd29e6c").
Proof. vm_compute. reflexivity. Qed.

(** Two contents that differ in one character have different digests. *)
Example sha_sensitive :
  compute_hash (py "Hello, World!") <> compute_hash (py "Hello, World?").
Proof. vm_compute. discriminate. Qed.

Example utf8_widths :
  encode_utf8 [0xE9; 0x20AC; 0x1F600] = Ok [195; 169; 226; 130; 172; 240; 159; 152; 128].
Proof. reflexivity. Qed.

Example extract_page_with_script :
  extract_soup by_name page_with_script None = Ok (py "Content").
Proof. vm_compute. reflexivity. Qed.

(** <p>Hello    World\n\n\tTest</p> *)
Example extract_collapses :
  extract_soup by_name
    [el "p" [NavigableString (py "Hello    World" ++ [10; 10; 9] ++ py "Test")]] None
  = Ok (py "Hello World Test").
Proof. vm_compute. reflexivity. Qed.

Example extract_selected :
  extract_soup by_name
    [el "body" [txt " "; el "h1" [txt "Header"]; el "main" [txt "Main"; el "b" [txt " Content "]];
                el "main" [txt "Second"]]]
    (Some (py "main"))
  = Ok (py "Main Content").
Proof. vm_compute. reflexivity. Qed.

Example extract_no_match :
  extract_soup by_name page_plain (Some (py "table"))
  = Raise (MonitorError (SelectorNoMatch (py "table"))).
Proof. vm_compute. reflexivity. Qed.

(** A tag inside a removed tag is not there any more when the selector is
    resolved. *)
Example extract_after_removal :
  extract_soup by_name
    [el "body" [el "iframe" [el "main" [txt "inner"]]; el "p" [txt "outer"]]]
    (Some (py "main"))
  = Raise (MonitorError (SelectorNoMatch (py "main"))).
Proof. vm_compute. reflexivity. Qed.

Example extract_class_substring :
  extract_soup by_name
    [el_class "div" ["header"] [txt "Title"]; el_class "div" ["box"; "Shadow"] [txt "Deco"];
     el_class "a" ["download"] [txt "Get"]; el_class "p" ["body"] [txt "Body"]]%string None
  = Ok (py "Body").
Proof. vm_compute. reflexivity. Qed.

(** The strings of a [template], [rt] or [rp] tag are left out of the
    text of the document and of any other tag, and are the text of that
    tag when the selector resolves to it. *)
Example extract_string_classes :
  extract_soup by_name page_with_template None = Ok (py "a b")
  /\ extract_soup by_name page_with_template (Some (py "ruby")) = Ok (py "b")
  /\ extract_soup by_name page_with_template (Some (py "template")) = Ok (py "T")
  /\ extract_soup by_name page_with_template (Some (py "rt")) = Ok (py "c").
Proof. repeat split; vm_compute; reflexivity. Qed.

(** A type selector matches whatever the case of its letters; a name
    cannot begin with a digit. *)
Example extract_type_selectors :
  extract_soup by_name page_plain (Some (py "P")) = Ok (py "Content")
  /\ extract_soup by_name page_plain (Some (py "1p")) = Raise SelectorSyntaxError.
Proof. split; vm_compute; reflexivity. Qed.

Example parents_values :
  parents (py "data/seen/last_hash.txt") = [py "data"; py "data/seen"]
  /\ parents (py "/var/last_hash.txt") = [py "/var"]
  /\ parents (py "last_hash.txt") = [].
Proof. repeat split; vm_compute; reflexivity. Qed.

(** [save_hash] makes the directories that are missing above the file,
    and raises when a file stands where a directory should. *)
Example save_hash_makes_directories :
  save_hash (py "newdir/sub/hash.txt") (py "abc") ∅
  = (Ok tt, {[ py "newdir" := Directory; py "newdir/sub" := Directory;
               py "newdir/sub/hash.txt" := File (py "abc") true true ]}).
Proof. vm_compute. reflexivity. Qed.

Example save_hash_below_a_file :
  let fs : filesystem := {[ py "notes.txt" := File (py "keep me") true true ]} in
  save_hash (py "notes.txt/hash.txt") (py "abc") fs = (Raise OSError, fs).
Proof. vm_compute. reflexivity. Qed.

(** ** Fingerprinter *)

Lemma octets_of_length (w : N) : List.length (SHA256.octets_of w) = 4%nat.
Proof. reflexivity. Qed.

Lemma octets_of_small (w : N) : Forall (fun o => o < 256) (SHA256.octets_of w).
Proof.
  unfold SHA256.octets_of.
  repeat (apply List.Forall_cons; [apply N.mod_lt; discriminate|]).
  apply List.Forall_nil.
Qed.

Lemma digest_length (m : bytes) : List.length (SHA256.digest m) = 32%nat.
Proof.
  unfold SHA256.digest. cbv zeta.
  rewrite !length_app, !octets_of_length. reflexivity.
Qed.

Lemma digest_small (m : bytes) : Forall (fun o => o < 256) (SHA256.digest m).
Proof.
  unfold SHA256.digest. cbv zeta.
  repeat (apply Forall_app; split); apply octets_of_small.
Qed.

Lemma hexlify_length (b : bytes) :
  List.length (hexlify b) = (2 * List.length b)%nat.
Proof.
  induction b as [|o b IH]; [reflexivity|].
  unfold hexlify in *. cbn [flat_map List.length app]. rewrite IH. lia.
Qed.

Lemma hex_digit_lower_hex (d : N) : d < 16 -> is_lower_hex (hex_digit d) = true.
Proof.
  intros Hd. unfold is_lower_hex, hex_digit.
  destruct (N.ltb_spec d 10).
  - apply orb_true_iff. left. apply andb_true_iff.
    split; apply N.leb_le; lia.
  - apply orb_true_iff. right. apply andb_true_iff.
    split; apply N.leb_le; lia.
Qed.

Lemma hexlify_lower_hex (b : bytes) :
  Forall (fun o => o < 256) b -> forallb is_lower_hex (hexlify b) = true.
Proof.
  induction 1 as [|o b Ho _ IH]; [reflexivity|].
  unfold hexlify in *. cbn [flat_map forallb app].
  rewrite IH, !hex_digit_lower_hex; [reflexivity| |].
  - apply N.mod_lt. discriminate.
  - apply N.Div0.div_lt_upper_bound. lia.
Qed.

Lemma utf8_char_total (c : N) :
  is_surrogate c = false -> exists b, utf8_char c = Some b.
Proof.
  intros Hc. unfold utf8_char. rewrite Hc.
  repeat match goal with |- context [if ?b then _ else _] => destruct b end; eauto.
Qed.

Lemma encode_utf8_total (s : str) :
  existsb is_surrogate s = false -> exists b, encode_utf8 s = Ok b.
Proof.
  induction s as [|c s IH]; cbn [existsb encode_utf8]; [eauto|].
  intros [Hc Hs]%orb_false_iff.
  destruct (utf8_char_total c Hc) as [b ->].
  destruct (IH Hs) as [bs ->]. cbn. eauto.
Qed.

Lemma hexlify_digest (m : bytes) : is_digest (hexlify (SHA256.digest m)).
Proof.
  split.
  - rewrite hexlify_length, digest_length. reflexivity.
  - apply hexlify_lower_hex, digest_small.
Qed.

Lemma compute_hash_is_digest (s h : str) : compute_hash s = Ok h -> is_digest h.
Proof.
  unfold compute_hash. destruct (encode_utf8 s) as [b|e]; cbn; [|discriminate].
  intros [= <-]. apply hexlify_digest.
Qed.

(** C5, as the code has it: on every string without a surrogate code
    point, the empty string included, [compute_hash] returns; what it
    returns is the lowercase hexadecimal SHA-256 digest of the UTF-8
    encoding of the string, 64 characters long, all of them hexadecimal
    digits; two calls on the same string return the same digest. *)
Theorem compute_hash_total_without_surrogates (s : str) :
  existsb is_surrogate s = false ->
  exists b h,
    encode_utf8 s = Ok b
    /\ compute_hash s = Ok h
    /\ h = hexlify (SHA256.digest b)
    /\ List.length h = 64%nat
    /\ forallb is_lower_hex h = true
    /\ (forall h', compute_hash s = Ok h' -> h' = h).
Proof.
  intros Hs. destruct (encode_utf8_total s Hs) as [b Hb].
  exists b, (hexlify (SHA256.digest b)).
  assert (Hh : compute_hash s = Ok (hexlify (SHA256.digest b)))
    by (unfold compute_hash; rewrite Hb; reflexivity).
  destruct (hexlify_digest b) as [Hlen Hhex].
  repeat split; try assumption.
  intros h' Hh'. congruence.
Qed.

Lemma compute_hash_total_without_surrogates_witness :
  existsb is_surrogate (py "") = false
  /\ exists b h,
       encode_utf8 (py "") = Ok b
       /\ compute_hash (py "") = Ok h
       /\ h = hexlify (SHA256.digest b)
       /\ List.length h = 64%nat
       /\ forallb is_lower_hex h = true
       /\ (forall h', compute_hash (py "") = Ok h' -> h' = h).
Proof.
  split; [reflexivity|].
  apply (compute_hash_total_without_surrogates (py "")). reflexivity.
Defined.

(** C5, as it is stated, fails on a string that holds a lone surrogate:
    the strict UTF-8 codec raises, and no digest is returned. *)
Lemma compute_hash_raises_on_surrogate :
  compute_hash [0xD800] = Raise UnicodeEncodeError
  /\ ~ (exists h, compute_hash [0xD800] = Ok h).
Proof.
  split; [reflexivity|]. intros [h Hh]. discriminate Hh.
Qed.

(** ** Whitespace *)

Ltac bool_to_prop :=
  repeat rewrite ?orb_true_iff, ?andb_true_iff, ?N.leb_le, ?N.eqb_eq, ?N.ltb_lt in *.

Lemma dropWhile_starts (s : str) : starts_space (dropWhile isspace s) = false.
Proof.
  induction s as [|c s IH]; [reflexivity|].
  cbn [dropWhile]. destruct (isspace c) eqn:Hc; [exact IH|]. cbn. exact Hc.
Qed.

Lemma rstrip_snoc (s : str) (c : N) :
  rstrip (s ++ [c]) = if isspace c then rstrip s else s ++ [c].
Proof.
  unfold rstrip. rewrite rev_app_distr. cbn [rev app dropWhile].
  destruct (isspace c); [reflexivity|].
  change (c :: rev s) with ([c] ++ rev s).
  rewrite rev_app_distr, rev_involutive. reflexivity.
Qed.

Lemma ends_space_snoc (s : str) (c : N) : ends_space (s ++ [c]) = isspace c.
Proof.
  induction s as [|d s IH]; [reflexivity|].
  cbn [app ends_space]. destruct s; [exact IH|]. exact IH.
Qed.

Lemma rstrip_id (s : str) : ends_space s = false -> rstrip s = s.
Proof.
  destruct s as [|c s _] using rev_ind; [reflexivity|].
  rewrite ends_space_snoc, rstrip_snoc. intros ->. reflexivity.
Qed.

Lemma rstrip_ends (s : str) : ends_space (rstrip s) = false.
Proof.
  induction s as [|c s IH] using rev_ind; [reflexivity|].
  rewrite rstrip_snoc. destruct (isspace c) eqn:Hc; [exact IH|].
  rewrite ends_space_snoc. exact Hc.
Qed.

Lemma rstrip_starts (s : str) :
  starts_space s = false -> starts_space (rstrip s) = false.
Proof.
  induction s as [|c s IH] using rev_ind; [reflexivity|].
  rewrite rstrip_snoc. destruct (isspace c) eqn:Hc; [|tauto].
  destruct s as [|d s]; [reflexivity|]. intros H. apply IH. exact H.
Qed.

(** What [strip] returns has no whitespace at either end. *)
Lemma strip_trimmed (s : str) :
  starts_space (strip s) = false /\ ends_space (strip s) = false.
Proof.
  unfold strip, lstrip. split.
  - apply rstrip_starts, dropWhile_starts.
  - apply rstrip_ends.
Qed.

Lemma whitespace_free_ends (s : str) : whitespace_free s -> ends_space s = false.
Proof.
  unfold whitespace_free. induction s as [|c s IH]; [reflexivity|].
  cbn [existsb ends_space]. intros [Hc Hs]%orb_false_iff.
  destruct s; [exact Hc|]. apply IH, Hs.
Qed.

Lemma whitespace_free_strip (s : str) : whitespace_free s -> strip s = s.
Proof.
  intros Hs. unfold strip, lstrip.
  assert (Hl : dropWhile isspace s = s).
  { destruct s as [|c s]; [reflexivity|]. cbn [dropWhile].
    unfold whitespace_free in Hs. cbn [existsb] in Hs.
    apply orb_false_iff in Hs as [-> _]. reflexivity. }
  rewrite Hl. apply rstrip_id, whitespace_free_ends, Hs.
Qed.

Lemma whitespace_free_newlines (s : str) :
  whitespace_free s -> universal_newlines s = s.
Proof.
  unfold whitespace_free. induction s as [|c s IH]; [reflexivity|].
  cbn [existsb universal_newlines]. intros [Hc Hs]%orb_false_iff.
  destruct (N.eqb_spec c 13) as [->|_]; [discriminate Hc|].
  rewrite IH by exact Hs. reflexivity.
Qed.

Lemma lower_hex_not_space (c : N) : is_lower_hex c = true -> isspace c = false.
Proof.
  intros H. apply not_true_iff_false. intros Hsp.
  unfold is_lower_hex, isspace in *. bool_to_prop. lia.
Qed.

Lemma lower_hex_whitespace_free (h : str) :
  forallb is_lower_hex h = true -> whitespace_free h.
Proof.
  unfold whitespace_free. induction h as [|c h IH]; [reflexivity|].
  cbn [forallb existsb]. intros [Hc Hh]%andb_true_iff.
  rewrite (lower_hex_not_space c Hc). apply IH, Hh.
Qed.

Lemma lower_hex_encodes (h : str) :
  forallb is_lower_hex h = true -> encode_utf8 h = Ok h.
Proof.
  induction h as [|c h IH]; [reflexivity|].
  cbn [forallb encode_utf8]. intros [Hc Hh]%andb_true_iff.
  assert (Hlt : (c <? 0x80) = true).
  { unfold is_lower_hex in Hc. bool_to_prop. lia. }
  unfold utf8_char. rewrite Hlt, (IH Hh). reflexivity.
Qed.

(** ** Baseline store *)

(** What [load_previous_hash] returns, by what is at the path. *)
Lemma load_previous_hash_eq (path : str) (fs : filesystem) :
  load_previous_hash path fs =
  (match fs !! path with
   | Some (File payload true _) => Ok (Some (strip (universal_newlines payload)))
   | Some (Undecodable _) => Raise UnicodeDecodeError
   | _ => Ok None
   end, fs).
Proof.
  unfold load_previous_hash, try_except_OSError, bind, path_exists, read_text, ret.
  destruct (fs !! path) as [[payload [] w|w| | |]|] eqn:E; cbn; rewrite ?E; reflexivity.
Qed.

(** The directories above a path are other paths than the path. *)
Lemma parents_from_proper (seen rest d : str) :
  In d (parents_from seen rest) ->
  exists more, more <> [] /\ seen ++ rest = d ++ more.
Proof.
  revert seen. induction rest as [|c rest IH]; intros seen; [intros []|].
  cbn [parents_from]. intros [Hin|Hin]%in_app_or.
  - destruct ((c =? 47) && nonempty seen); [|destruct Hin].
    destruct Hin as [<-|[]]. exists (c :: rest). split; [discriminate|reflexivity].
  - destruct (IH _ Hin) as (more & Hne & E). exists more. split; [exact Hne|].
    rewrite <- E, <- app_assoc. reflexivity.
Qed.

Lemma parents_proper (path d : str) : In d (parents path) -> d <> path.
Proof.
  intros Hin ->. destruct (parents_from_proper [] _ _ Hin) as (more & Hne & E).
  cbn [app] in E. apply Hne, (app_inv_head path).
  rewrite app_nil_r. symmetry. exact E.
Qed.

(** What [make_dirs] changes: a missing directory of the list is made,
    nothing else is touched. *)
Lemma make_dirs_frame (dirs : list str) :
  forall fs r fs', make_dirs dirs fs = (r, fs') ->
  forall p, fs' !! p = fs !! p
            \/ (In p dirs /\ fs !! p = None /\ fs' !! p = Some Directory).
Proof.
  induction dirs as [|d dirs IH]; intros fs r fs'; cbn [make_dirs].
  - intros [= _ <-] p. left. reflexivity.
  - destruct (fs !! d) as [e|] eqn:E.
    + destruct e; try (intros [= _ <-] p; left; reflexivity).
      intros H p. destruct (IH _ _ _ H p) as [Hp|(Hin & Hn & Hd)]; [left; exact Hp|].
      right. split; [right; exact Hin|split; assumption].
    + intros H p. destruct (decide (p = d)) as [->|Hne].
      * right. split; [left; reflexivity|]. split; [exact E|].
        destruct (IH _ _ _ H d) as [Hp|(_ & Hn & _)].
        -- rewrite Hp. apply lookup_insert_eq.
        -- rewrite lookup_insert_eq in Hn. discriminate Hn.
      * destruct (IH _ _ _ H p) as [Hp|(Hin & Hn & Hd)].
        -- left. rewrite Hp. apply lookup_insert_ne. congruence.
        -- rewrite lookup_insert_ne in Hn by congruence.
           right. split; [right; exact Hin|split; assumption].
Qed.

Lemma make_dirs_ready (dirs : list str) :
  forall fs,
    Forall (fun d => fs !! d = None \/ fs !! d = Some Directory) dirs ->
    fst (make_dirs dirs fs) = Ok tt.
Proof.
  induction dirs as [|d dirs IH]; intros fs H; [reflexivity|].
  inversion H as [|? ? Hd Hrest]; subst. cbn [make_dirs].
  destruct Hd as [-> | ->]; [|apply IH, Hrest].
  apply IH. revert Hrest. apply List.Forall_impl. intros p Hp.
  destruct (decide (p = d)) as [->|Hne].
  - right. apply lookup_insert_eq.
  - rewrite lookup_insert_ne by congruence. exact Hp.
Qed.

Lemma make_dirs_raises (dirs : list str) :
  forall fs fs' e, make_dirs dirs fs = (Raise e, fs') -> e = OSError.
Proof.
  induction dirs as [|d dirs IH]; intros fs fs' e; cbn [make_dirs]; [discriminate|].
  destruct (fs !! d) as [[]|]; try (intros [= <- _]; reflexivity); apply IH.
Qed.

(** [mkdir_parents] leaves what is at the path, and makes at most the
    missing directories above it. *)
Lemma mkdir_parents_frame (path : str) (fs : filesystem) (p : str) :
  snd (mkdir_parents path fs) !! p = fs !! p
  \/ (In p (parents path) /\ fs !! p = None
      /\ snd (mkdir_parents path fs) !! p = Some Directory).
Proof.
  unfold mkdir_parents.
  destruct (fs !! path) as [[]|]; try (left; reflexivity).
  destruct (make_dirs (parents path) fs) as [r fs'] eqn:Hm. cbn [snd].
  apply (make_dirs_frame _ _ _ _ Hm).
Qed.

Lemma mkdir_parents_path (path : str) (fs : filesystem) :
  snd (mkdir_parents path fs) !! path = fs !! path.
Proof.
  destruct (mkdir_parents_frame path fs path) as [E|(Hin & _)]; [exact E|].
  destruct (parents_proper _ _ Hin eq_refl).
Qed.

Lemma mkdir_parents_free (path : str) (fs : filesystem) :
  fs !! path = None -> parents_ready path fs ->
  fst (mkdir_parents path fs) = Ok tt.
Proof.
  intros E Hp. unfold mkdir_parents. rewrite E. apply make_dirs_ready, Hp.
Qed.

Lemma mkdir_parents_raises (path : str) (fs fs' : filesystem) (e : exn) :
  mkdir_parents path fs = (Raise e, fs') -> e = OSError.
Proof.
  unfold mkdir_parents.
  destruct (fs !! path) as [[]|]; try discriminate;
    try (intros [= <- _]; reflexivity).
  apply make_dirs_raises.
Qed.

(** [write_text] touches the path alone. *)
Lemma write_text_frame (path v : str) (fs fs' : filesystem) (r : result unit) :
  write_text path v fs = (r, fs') ->
  forall other, other <> path -> fs' !! other = fs !! other.
Proof.
  unfold write_text. cbv zeta.
  destruct (fs !! path) as [[payload rd [] |[]| | |]|];
    destruct (encode_utf8 v);
    intros [= _ <-] other Hne; rewrite ?lookup_insert_ne by congruence; reflexivity.
Qed.

(** [save_hash] on a path that takes the write. *)
Lemma save_hash_written (path v payload : str) (r : bool) (fs : filesystem) :
  (exists b, encode_utf8 v = Ok b) ->
  (fs !! path = None -> parents_ready path fs ->
   save_hash path v fs
   = (Ok tt, <[path := File v true true]> (snd (mkdir_parents path fs))))
  /\ (fs !! path = Some (File payload r true) ->
      save_hash path v fs = (Ok tt, <[path := File v r true]> fs)).
Proof.
  intros [b Hb]. split.
  - intros E Hp. unfold save_hash, bind.
    pose proof (mkdir_parents_free path fs E Hp) as Hok.
    pose proof (mkdir_parents_path path fs) as Hpath.
    destruct (mkdir_parents path fs) as [r0 fs1]. cbn [fst snd] in *. subst r0.
    unfold write_text. cbv zeta. rewrite Hpath, E, Hb. reflexivity.
  - intros E. unfold save_hash, bind, mkdir_parents. rewrite E.
    unfold write_text. cbv zeta. rewrite E, Hb. reflexivity.
Qed.

Lemma mkdir_parents_present (path : str) (fs : filesystem) (payload : str)
    (r w : bool) :
  fs !! path = Some (File payload r w) -> mkdir_parents path fs = (Ok tt, fs).
Proof. intros E. unfold mkdir_parents. rewrite E. reflexivity. Qed.

Lemma save_hash_usable (path v : str) (fs : filesystem) :
  usable path fs -> existsb is_surrogate v = false ->
  save_hash path v fs
  = (Ok tt, <[path := File v true true]> (snd (mkdir_parents path fs))).
Proof.
  intros Hu Hv. pose proof (encode_utf8_total v Hv) as Hb.
  destruct Hu as [[E Hp]|[[payload E]|E]].
  - apply (proj1 (save_hash_written path v [] true fs Hb) E Hp).
  - rewrite (mkdir_parents_present _ _ _ _ _ E).
    apply (proj2 (save_hash_written path v payload true fs Hb) E).
  - destruct Hb as [b Hb]. unfold save_hash, bind, mkdir_parents. rewrite E.
    unfold write_text. cbv zeta. rewrite E, Hb. reflexivity.
Qed.

(** A save that returns has written the value at the path; the file can
    be read unless it was there and could not. *)
Lemma save_hash_ok (path v : str) (fs fs' : filesystem) :
  save_hash path v fs = (Ok tt, fs') ->
  exists r,
    fs' = <[path := File v r true]> (snd (mkdir_parents path fs))
    /\ (r = false -> exists payload, fs !! path = Some (File payload false true)).
Proof.
  unfold save_hash, bind.
  pose proof (mkdir_parents_path path fs) as Hpath.
  destruct (mkdir_parents path fs) as [[[]|e] fs1]; cbn [snd] in *; [|discriminate].
  unfold write_text. cbv zeta. rewrite Hpath.
  destruct (fs !! path) as [[payload rd [] |[]| | |]|];
    destruct (encode_utf8 v); try discriminate; intros [= <-].
  - exists rd. split; [reflexivity|]. intros ->. eauto.
  - exists true. split; [reflexivity|discriminate].
  - exists true. split; [reflexivity|discriminate].
Qed.

Lemma load_after_write (path v : str) (w : bool) (fs : filesystem) :
  whitespace_free v ->
  load_previous_hash path (<[path := File v true w]> fs)
  = (Ok (Some v), <[path := File v true w]> fs).
Proof.
  intros Hv. rewrite load_previous_hash_eq, lookup_insert_eq.
  rewrite whitespace_free_newlines, whitespace_free_strip by exact Hv.
  reflexivity.
Qed.




(** C7, as the code has it: [load_previous_hash] never raises an I/O
    error.  It returns [None] when no file is at the path, and when
    testing for the file or reading it fails with an I/O error; when the
    file is read, it returns the text without its surrounding whitespace.
    An exception of the read that is no I/O error is not caught: whenever
    the read raises one, [load_previous_hash] raises it; and it raises
    nothing else. *)
Theorem load_previous_hash_swallows_io_errors (key : str) (fs : filesystem) :
  fst (load_previous_hash key fs) <> Raise OSError
  /\ snd (load_previous_hash key fs) = fs
  /\ (fs !! key = None -> load_previous_hash key fs = (Ok None, fs))
  /\ (fst (path_exists key fs) = Raise OSError ->
      load_previous_hash key fs = (Ok None, fs))
  /\ (fst (read_text key fs) = Raise OSError ->
      load_previous_hash key fs = (Ok None, fs))
  /\ (forall s, fst (read_text key fs) = Ok s ->
                load_previous_hash key fs = (Ok (Some (strip s)), fs)
                /\ starts_space (strip s) = false
                /\ ends_space (strip s) = false)
  /\ (forall e, fst (read_text key fs) = Raise e -> e <> OSError ->
                load_previous_hash key fs = (Raise e, fs))
  /\ (forall e, fst (load_previous_hash key fs) = Raise e ->
                fst (read_text key fs) = Raise e /\ e <> OSError).
Proof.
  rewrite load_previous_hash_eq. unfold path_exists, read_text.
  destruct (fs !! key) as [[payload [] w|w| | |]|] eqn:E; cbn;
    repeat match goal with |- _ /\ _ => split end;
    eauto; try (intros; discriminate); try (intros e [= <-] He; congruence).
  - intros s [= <-]. split; [reflexivity|apply strip_trimmed].
  - intros e [= <-]. split; [reflexivity|discriminate].
Qed.

Lemma load_previous_hash_swallows_io_errors_witness :
  let fs : filesystem :=
    {[ py "hash.txt" := File (py "  abc123  " ++ [10]) true true;
       py "locked.txt" := File (py "abc123") false true;
       py "dir" := Directory;
       py "binary.txt" := Undecodable true;
       py "secret/hash.txt" := Unreachable ]} in
  load_previous_hash (py "missing.txt") fs = (Ok None, fs)
  /\ load_previous_hash (py "secret/hash.txt") fs = (Ok None, fs)
  /\ load_previous_hash (py "locked.txt") fs = (Ok None, fs)
  /\ load_previous_hash (py "dir") fs = (Ok None, fs)
  /\ load_previous_hash (py "hash.txt") fs = (Ok (Some (py "abc123")), fs)
  /\ load_previous_hash (py "binary.txt") fs = (Raise UnicodeDecodeError, fs).
Proof.
  intros fs.
  pose proof (load_previous_hash_swallows_io_errors (py "binary.txt") fs)
    as (_ & _ & _ & _ & _ & _ & Hraise & _).
  pose proof (load_previous_hash_swallows_io_errors (py "missing.txt") fs)
    as (_ & _ & Hmissing & _).
  pose proof (load_previous_hash_swallows_io_errors (py "secret/hash.txt") fs)
    as (_ & _ & _ & Hstat & _).
  pose proof (load_previous_hash_swallows_io_errors (py "locked.txt") fs)
    as (_ & _ & _ & _ & Hlocked & _).
  pose proof (load_previous_hash_swallows_io_errors (py "dir") fs)
    as (_ & _ & _ & _ & Hdir & _).
  pose proof (load_previous_hash_swallows_io_errors (py "hash.txt") fs)
    as (_ & _ & _ & _ & _ & Hread & _).
  split; [|split; [|split; [|split; [|split]]]].
  - apply Hmissing. vm_compute. reflexivity.
  - apply Hstat. vm_compute. reflexivity.
  - apply Hlocked. vm_compute. reflexivity.
  - apply Hdir. vm_compute. reflexivity.
  - refine (proj1 (Hread (py "  abc123  " ++ [10]) _)). vm_compute. reflexivity.
  - apply Hraise; [vm_compute; reflexivity|discriminate].
Defined.

(** C7, as it is stated, fails on a file whose bytes are no text: reading
    it raises [UnicodeDecodeError], which is no I/O error and goes through
    the handler. *)
Lemma load_previous_hash_raises_on_undecodable :
  let fs : filesystem := {[ py "last_hash.txt" := Undecodable true ]} in
  load_previous_hash (py "last_hash.txt") fs = (Raise UnicodeDecodeError, fs)
  /\ ~ (exists v, load_previous_hash (py "last_hash.txt") fs = (Ok v, fs)).
Proof.
  intros fs.
  assert (E : load_previous_hash (py "last_hash.txt") fs = (Raise UnicodeDecodeError, fs))
    by (vm_compute; reflexivity).
  split; [exact E|]. intros [v Hv]. rewrite E in Hv. discriminate Hv.
Qed.

(** ** Fetcher *)

(** C9, as the code has it: a final response with a status from 400 to
    599 makes [fetch_page_content] fail with the HTTP error of that status
    and reason; a final response with any other status, in the 2xx range
    or not, is returned as the document. *)
Theorem fetch_fails_on_error_status (get : http) (url : str) (timeout : N)
    (r : response) :
  get url timeout = Responded r ->
  (400 <= status_code r < 600 ->
   fetch_page_content get url timeout
   = Raise (MonitorError (HttpError (status_code r) (reason r))))
  /\ (status_code r < 400 \/ 600 <= status_code r ->
      fetch_page_content get url timeout = Ok (text r)).
Proof.
  intros Hget. unfold fetch_page_content, raises_for_status. rewrite Hget.
  destruct (N.leb_spec 400 (status_code r)), (N.ltb_spec (status_code r) 600);
    cbn; split; intros; try reflexivity; lia.
Qed.

Lemma fetch_fails_on_error_status_witness :
  let get := serve 404 "Not Found" (py "<h1>gone</h1>") in
  let url := py "https://example.org/news" in
  fetch_page_content get url 30
  = Raise (MonitorError (HttpError 404 (py "Not Found"))).
Proof.
  intros get url.
  refine (proj1 (fetch_fails_on_error_status get url 30
                   {| status_code := 404; reason := py "Not Found";
                      text := py "<h1>gone</h1>" |} _) _).
  - reflexivity.
  - cbn. lia.
Defined.

(** C9, as it is stated, fails on a final response "304 Not Modified":
    the status is outside the 2xx range and the body is returned. *)
Lemma fetch_returns_body_of_304 :
  let r := {| status_code := 304; reason := py "Not Modified"; text := html_plain |} in
  ~ (200 <= status_code r < 300)
  /\ fetch_page_content (fun _ _ => Responded r) (py "https://example.org/news") 30
     = Ok html_plain.
Proof. cbn. split; [lia|reflexivity]. Qed.

(** ** Change evaluator *)

Lemma save_hash_accepted (path h : str) (fs : filesystem) :
  accepts_write path fs -> is_digest h ->
  exists r,
    save_hash path h fs
    = (Ok tt, <[path := File h r true]> (snd (mkdir_parents path fs)))
    /\ (r = false -> exists payload, fs !! path = Some (File payload false true)).
Proof.
  intros Hw [_ Hh].
  assert (Hb : exists b, encode_utf8 h = Ok b) by (rewrite (lower_hex_encodes h Hh); eauto).
  destruct Hw as [[E Hp]|(payload & r & E)].
  - exists true. split; [|discriminate].
    apply (proj1 (save_hash_written path h [] true fs Hb) E Hp).
  - exists r. split; [|intros ->; eauto].
    rewrite (mkdir_parents_present _ _ _ _ _ E).
    apply (proj2 (save_hash_written path h payload r fs Hb) E).
Qed.

(** An exception of the save is the exception of the evaluation. *)
Lemma save_raises_through {A : Type} (path h : str) (k : io A)
    (fs fs' : filesystem) (e : exn) :
  save_hash path h fs = (Raise e, fs') ->
  (save_hash path h ;;; k) fs = (Raise e, fs').
Proof. intros H. unfold bind at 1. rewrite H. reflexivity. Qed.

(** The evaluation once the page is fetched, normalized and hashed. *)
Lemma check_for_changes_eq (get : http) (parse : html_parser) (css : matcher)
    (config : Config) (fs : filesystem) (html content h : str) :
  fetch_page_content get (monitor_url config) 30 = Ok html ->
  extract_content parse css html (check_selector config) = Ok content ->
  compute_hash content = Ok h ->
  check_for_changes get parse css config fs =
  match fst (load_previous_hash (hash_storage_path config) fs) with
  | Ok None =>
      (save_hash (hash_storage_path config) h ;;; ret (false, message FirstRun)) fs
  | Ok (Some previous) =>
      if str_eqb h previous then (Ok (false, message Unchanged), fs)
      else (save_hash (hash_storage_path config) h ;;; ret (true, message Changed)) fs
  | Raise e => (Raise e, fs)
  end.
Proof.
  intros Hf He Hh. unfold check_for_changes, bind at 1 2 3 4, lift.
  rewrite Hf, He, Hh, load_previous_hash_eq. cbn [fst].
  destruct (fs !! hash_storage_path config) as [[payload [] w|w| | |]|];
    try reflexivity.
  destruct (str_eqb h (strip (universal_newlines payload))); reflexivity.
Qed.

(** C3, as the code has it: when the page is fetched, normalized and
    hashed and no baseline is loaded at the configured path, then, on a
    store that takes the write at that path, [check_for_changes] saves
    the new fingerprint there (the file at the path holds it) and returns
    [False] with the message of the first run; and when the save raises,
    [check_for_changes] raises the same exception and returns nothing. *)
Theorem first_run_saves_baseline (get : http) (parse : html_parser)
    (css : matcher) (config : Config) (fs : filesystem) (html content h : str) :
  fetch_page_content get (monitor_url config) 30 = Ok html ->
  extract_content parse css html (check_selector config) = Ok content ->
  compute_hash content = Ok h ->
  load_previous_hash (hash_storage_path config) fs = (Ok None, fs) ->
  (accepts_write (hash_storage_path config) fs ->
   exists fs' r,
     check_for_changes get parse css config fs = (Ok (false, message FirstRun), fs')
     /\ save_hash (hash_storage_path config) h fs = (Ok tt, fs')
     /\ fs' !! hash_storage_path config = Some (File h r true))
  /\ (forall e fs',
        save_hash (hash_storage_path config) h fs = (Raise e, fs') ->
        check_for_changes get parse css config fs = (Raise e, fs')).
Proof.
  intros Hf He Hh Hload.
  rewrite (check_for_changes_eq _ _ _ _ _ _ _ _ Hf He Hh), Hload. cbn [fst].
  split.
  - intros Hw.
    destruct (save_hash_accepted _ h fs Hw (compute_hash_is_digest _ _ Hh))
      as (r & Hsave & _).
    eexists _, r. unfold bind. rewrite Hsave.
    split; [reflexivity|]. split; [reflexivity|]. apply lookup_insert_eq.
  - intros e fs'. apply save_raises_through.
Qed.

Lemma first_run_saves_baseline_witness :
  let get := serve 200 "OK" html_plain in
  exists fs' r,
    check_for_changes get demo_parse by_name demo_config ∅
    = (Ok (false, message FirstRun), fs')
    /\ save_hash (py "last_hash.txt") hash_of_Content ∅ = (Ok tt, fs')
    /\ fs' !! py "last_hash.txt" = Some (File hash_of_Content r true).
Proof.
  intros get.
  refine (proj1 (first_run_saves_baseline get demo_parse by_name demo_config ∅
                   html_plain (py "Content") hash_of_Content _ _ _ _) _).
  - reflexivity.
  - vm_compute. reflexivity.
  - vm_compute. reflexivity.
  - vm_compute. reflexivity.
  - left. split; [vm_compute; reflexivity|constructor].
Defined.

(** C3, as it is stated, fails when the read error that [load] swallowed
    comes from a path that cannot be written either: on a directory at the
    configured path [load_previous_hash] returns [None], the save raises
    the I/O error, and [check_for_changes] raises it: nothing is saved and
    no result is returned. *)
Lemma first_run_raises_on_directory :
  let get := serve 200 "OK" html_plain in
  let fs : filesystem := {[ py "last_hash.txt" := Directory ]} in
  fetch_page_content get (monitor_url demo_config) 30 = Ok html_plain
  /\ extract_content demo_parse by_name html_plain None = Ok (py "Content")
  /\ compute_hash (py "Content") = Ok hash_of_Content
  /\ load_previous_hash (hash_storage_path demo_config) fs = (Ok None, fs)
  /\ check_for_changes get demo_parse by_name demo_config fs = (Raise OSError, fs).
Proof.
  intros get fs.
  assert (Hf : fetch_page_content get (monitor_url demo_config) 30 = Ok html_plain)
    by reflexivity.
  assert (He : extract_content demo_parse by_name html_plain
                 (check_selector demo_config) = Ok (py "Content"))
    by (vm_compute; reflexivity).
  assert (Hh : compute_hash (py "Content") = Ok hash_of_Content)
    by (vm_compute; reflexivity).
  assert (Hl : load_previous_hash (hash_storage_path demo_config) fs = (Ok None, fs))
    by (rewrite load_previous_hash_eq; reflexivity).
  split; [exact Hf|]. split; [exact He|]. split; [exact Hh|]. split; [exact Hl|].
  rewrite (check_for_changes_eq _ _ _ _ _ _ _ _ Hf He Hh), Hl. cbn [fst].
  apply save_raises_through.
  unfold save_hash, bind, mkdir_parents, write_text. cbv zeta.
  change (hash_storage_path demo_config) with (py "last_hash.txt").
  unfold fs. rewrite !lookup_singleton_eq. reflexivity.
Qed.

(** C2, as the code has it: when the page is fetched, normalized and
    hashed, a baseline is loaded at the configured path and the new
    fingerprint differs from it, then, on a store that takes the write at
    that path, [check_for_changes] saves the new fingerprint there and
    returns [True] with the message of a change, and [load_previous_hash]
    at that path then returns the new fingerprint; and when the save
    raises, [check_for_changes] raises the same exception and returns
    nothing. *)
Theorem change_saves_new_fingerprint (get : http) (parse : html_parser)
    (css : matcher) (config : Config) (fs : filesystem)
    (html content h previous : str) :
  fetch_page_content get (monitor_url config) 30 = Ok html ->
  extract_content parse css html (check_selector config) = Ok content ->
  compute_hash content = Ok h ->
  load_previous_hash (hash_storage_path config) fs = (Ok (Some previous), fs) ->
  h <> previous ->
  (accepts_write (hash_storage_path config) fs ->
   exists fs',
     check_for_changes get parse css config fs = (Ok (true, message Changed), fs')
     /\ save_hash (hash_storage_path config) h fs = (Ok tt, fs')
     /\ load_previous_hash (hash_storage_path config) fs' = (Ok (Some h), fs'))
  /\ (forall e fs',
        save_hash (hash_storage_path config) h fs = (Raise e, fs') ->
        check_for_changes get parse css config fs = (Raise e, fs')).
Proof.
  intros Hf He Hh Hload Hne.
  pose proof (compute_hash_is_digest _ _ Hh) as Hd.
  rewrite (check_for_changes_eq _ _ _ _ _ _ _ _ Hf He Hh), Hload. cbn [fst].
  unfold str_eqb. rewrite bool_decide_eq_false_2 by exact Hne.
  split.
  - intros Hw. destruct (save_hash_accepted _ h fs Hw Hd) as (r & Hsave & Hr).
    assert (r = true) as ->.
    { destruct r; [reflexivity|]. destruct (Hr eq_refl) as [payload E].
      rewrite load_previous_hash_eq, E in Hload. discriminate Hload. }
    eexists. unfold bind. rewrite Hsave.
    split; [reflexivity|]. split; [reflexivity|].
    apply load_after_write, lower_hex_whitespace_free, Hd.
  - intros e fs'. apply save_raises_through.
Qed.

Lemma change_saves_new_fingerprint_witness :
  let get := serve 200 "OK" html_plain in
  let fs : filesystem := {[ py "last_hash.txt" := File (py "0123abcd" ++ [10]) true true ]} in
  exists fs',
    check_for_changes get demo_parse by_name demo_config fs
    = (Ok (true, message Changed), fs')
    /\ save_hash (py "last_hash.txt") hash_of_Content fs = (Ok tt, fs')
    /\ load_previous_hash (py "last_hash.txt") fs' = (Ok (Some hash_of_Content), fs').
Proof.
  intros get fs.
  refine (proj1 (change_saves_new_fingerprint get demo_parse by_name demo_config fs
                   html_plain (py "Content") hash_of_Content (py "0123abcd")
                   _ _ _ _ _) _).
  - reflexivity.
  - vm_compute. reflexivity.
  - vm_compute. reflexivity.
  - vm_compute. reflexivity.
  - vm_compute. discriminate.
  - right. exists (py "0123abcd" ++ [10]), true. vm_compute. reflexivity.
Defined.

(** C2, as it is stated, fails on a baseline file that can be read and
    not written: the baseline is loaded, the new fingerprint differs from
    it, the save raises the I/O error, and [check_for_changes] raises it:
    no result is returned, and the file holds the old baseline still. *)
Lemma change_raises_on_read_only_baseline :
  let get := serve 200 "OK" html_plain in
  let fs : filesystem := {[ py "last_hash.txt" := File (py "0123abcd") true false ]} in
  fetch_page_content get (monitor_url demo_config) 30 = Ok html_plain
  /\ extract_content demo_parse by_name html_plain None = Ok (py "Content")
  /\ compute_hash (py "Content") = Ok hash_of_Content
  /\ load_previous_hash (hash_storage_path demo_config) fs
     = (Ok (Some (py "0123abcd")), fs)
  /\ hash_of_Content <> py "0123abcd"
  /\ check_for_changes get demo_parse by_name demo_config fs = (Raise OSError, fs).
Proof.
  intros get fs.
  assert (Hf : fetch_page_content get (monitor_url demo_config) 30 = Ok html_plain)
    by reflexivity.
  assert (He : extract_content demo_parse by_name html_plain
                 (check_selector demo_config) = Ok (py "Content"))
    by (vm_compute; reflexivity).
  assert (Hh : compute_hash (py "Content") = Ok hash_of_Content)
    by (vm_compute; reflexivity).
  assert (Hl : load_previous_hash (hash_storage_path demo_config) fs
               = (Ok (Some (py "0123abcd")), fs))
    by (rewrite load_previous_hash_eq; reflexivity).
  assert (Hne : hash_of_Content <> py "0123abcd") by (vm_compute; discriminate).
  split; [exact Hf|]. split; [exact He|]. split; [exact Hh|]. split; [exact Hl|].
  split; [exact Hne|].
  rewrite (check_for_changes_eq _ _ _ _ _ _ _ _ Hf He Hh), Hl. cbn [fst].
  unfold str_eqb. rewrite bool_decide_eq_false_2 by exact Hne.
  apply save_raises_through.
  unfold save_hash, bind, mkdir_parents, write_text. cbv zeta.
  change (hash_storage_path demo_config) with (py "last_hash.txt").
  unfold fs. rewrite !lookup_singleton_eq. reflexivity.
Qed.

(** C4: when the new fingerprint equals the baseline loaded at the
    configured path, [check_for_changes] returns [False] with the message
    of no change and leaves the file system as it was; and whenever it
    returns the message of no change, the file system is as it was. *)
Theorem unchanged_leaves_store (get : http) (parse : html_parser)
    (css : matcher) (config : Config) (fs : filesystem) :
  (forall html content h,
     fetch_page_content get (monitor_url config) 30 = Ok html ->
     extract_content parse css html (check_selector config) = Ok content ->
     compute_hash content = Ok h ->
     load_previous_hash (hash_storage_path config) fs = (Ok (Some h), fs) ->
     check_for_changes get parse css config fs = (Ok (false, message Unchanged), fs))
  /\ (forall changed fs',
        check_for_changes get parse css config fs
        = (Ok (changed, message Unchanged), fs') ->
        fs' = fs).
Proof.
  split.
  - intros html content h Hf He Hh Hload.
    rewrite (check_for_changes_eq _ _ _ _ _ _ _ _ Hf He Hh), Hload. cbn [fst].
    unfold str_eqb. rewrite bool_decide_eq_true_2 by reflexivity. reflexivity.
  - intros changed fs'. unfold check_for_changes, bind at 1 2 3, lift.
    destruct (fetch_page_content _ _ _) as [html|]; [|discriminate].
    destruct (extract_content _ _ _ _) as [content|]; [|discriminate].
    destruct (compute_hash content) as [h|]; [|discriminate].
    unfold bind at 1.
    destruct (load_previous_hash _ fs) as [[[previous|]|e] fs1] eqn:El;
      rewrite load_previous_hash_eq in El; injection El as _ <-.
    + destruct (str_eqb h previous).
      * intros [= _ <-]. reflexivity.
      * unfold bind. destruct (save_hash _ _ _) as [[[]|] fs'']; intros [= H]; discriminate H.
    + unfold bind. destruct (save_hash _ _ _) as [[[]|] fs'']; intros [= H]; discriminate H.
    + discriminate.
Qed.

Lemma unchanged_leaves_store_witness :
  let get := serve 200 "OK" html_plain in
  let fs : filesystem := {[ py "last_hash.txt" := File (hash_of_Content ++ [10]) true true ]} in
  check_for_changes get demo_parse by_name demo_config fs
  = (Ok (false, message Unchanged), fs).
Proof.
  intros get fs.
  refine (proj1 (unchanged_leaves_store get demo_parse by_name demo_config fs)
            html_plain (py "Content") hash_of_Content _ _ _ _).
  - reflexivity.
  - vm_compute. reflexivity.
  - vm_compute. reflexivity.
  - vm_compute. reflexivity.
Defined.

(** ** Words of a text *)

Lemma starts_word_words (s : str) :
  starts_word s = true -> exists w r, words s = w :: r.
Proof.
  destruct s as [|c s]; [discriminate|]. cbn [starts_word words].
  intros Hc%negb_true_iff. rewrite Hc.
  destruct (starts_word s); [|eauto].
  destruct (words s); cbn; eauto.
Qed.

Lemma spaced_tail (c : N) (a b : str) :
  spaced (c :: a) b = true -> spaced a b = true.
Proof.
  unfold spaced. destruct a as [|d a]; [reflexivity|]. cbn. tauto.
Qed.

(** Two texts side by side have the words of the one, then the words of
    the other, unless a word runs across the seam. *)
Lemma words_app (a b : str) :
  spaced a b = true -> words (a ++ b) = words a ++ words b.
Proof.
  induction a as [|c a IH]; [reflexivity|]. intros Hsp.
  specialize (IH (spaced_tail c a b Hsp)).
  cbn [app words]. destruct (isspace c) eqn:Hc; [exact IH|].
  destruct a as [|d a].
  - cbn [app] in *. destruct b as [|e b]; [reflexivity|].
    unfold spaced in Hsp. cbn in Hsp. rewrite Hc in Hsp. cbn in Hsp.
    cbn [starts_word]. rewrite Hsp. reflexivity.
  - change (starts_word ((d :: a) ++ b)) with (starts_word (d :: a)).
    rewrite IH. destruct (starts_word (d :: a)) eqn:Hd; [|reflexivity].
    destruct (starts_word_words _ Hd) as (w & r & ->). reflexivity.
Qed.

Lemma words_snoc_space (s : str) (c : N) :
  isspace c = true -> words (s ++ [c]) = words s.
Proof.
  intros Hc. rewrite words_app.
  - cbn. rewrite Hc. apply app_nil_r.
  - unfold spaced. cbn. rewrite Hc. apply orb_true_r.
Qed.

Lemma words_lstrip (s : str) : words (lstrip s) = words s.
Proof.
  unfold lstrip. induction s as [|c s IH]; [reflexivity|].
  cbn [dropWhile words]. destruct (isspace c) eqn:Hc; [exact IH|].
  cbn [words]. rewrite Hc. reflexivity.
Qed.

Lemma words_rstrip (s : str) : words (rstrip s) = words s.
Proof.
  induction s as [|c s IH] using rev_ind; [reflexivity|].
  rewrite rstrip_snoc. destruct (isspace c) eqn:Hc; [|reflexivity].
  rewrite words_snoc_space by exact Hc. exact IH.
Qed.

Lemma words_strip (s : str) : words (strip s) = words s.
Proof. unfold strip. rewrite words_rstrip. apply words_lstrip. Qed.

Lemma words_blank (s : str) : blank s = true -> words s = [].
Proof.
  unfold blank. induction s as [|c s IH]; [reflexivity|].
  cbn [forallb words]. intros [-> Hs]%andb_true_iff. apply IH, Hs.
Qed.

Lemma words_nil_blank (s : str) : words s = [] -> blank s = true.
Proof.
  unfold blank. induction s as [|c s IH]; [reflexivity|].
  cbn [forallb words]. destruct (isspace c); [exact IH|].
  destruct (starts_word s); [|discriminate].
  destruct (words s); discriminate.
Qed.

Lemma blank_ends_space (s : str) : blank s = true -> s <> [] -> ends_space s = true.
Proof.
  unfold blank. induction s as [|c s IH]; [congruence|].
  cbn [forallb ends_space]. intros [Hc Hs]%andb_true_iff _.
  destruct s; [exact Hc|]. apply IH; [exact Hs|discriminate].
Qed.

Lemma words_well_formed (s : str) :
  Forall (fun w => w <> [] /\ whitespace_free w) (words s).
Proof.
  induction s as [|c s IH]; [constructor|].
  cbn [words]. destruct (isspace c) eqn:Hc; [exact IH|].
  assert (Hone : [c] <> [] /\ whitespace_free [c]).
  { split; [discriminate|]. unfold whitespace_free. cbn. rewrite Hc. reflexivity. }
  destruct (starts_word s); [|constructor; assumption].
  destruct IH as [|w r [_ Hw] Hr]; cbn; constructor; try assumption.
  - constructor.
  - split; [discriminate|]. unfold whitespace_free in *. cbn. rewrite Hc. exact Hw.
Qed.

Lemma ends_space_app (x y : str) : y <> [] -> ends_space (x ++ y) = ends_space y.
Proof.
  intros Hy. induction x as [|c x IH]; [reflexivity|].
  cbn [app ends_space]. destruct (x ++ y) eqn:E; [|exact IH].
  apply app_eq_nil in E as [_ ->]. congruence.
Qed.

Lemma join_cons (sep w : str) (r : list str) :
  r <> [] -> join sep (w :: r) = w ++ sep ++ join sep r.
Proof. destruct r; [congruence|reflexivity]. Qed.

Lemma join_nonempty (sep w : str) (r : list str) : w <> [] -> join sep (w :: r) <> [].
Proof.
  intros Hw. destruct r; cbn [join]; [exact Hw|].
  destruct w; [congruence|discriminate].
Qed.

Lemma join_words_ends (ws : list str) :
  Forall (fun w => w <> [] /\ whitespace_free w) ws ->
  ends_space (join [32] ws) = false.
Proof.
  induction 1 as [|w r [Hne Hw] Hr IH]; [reflexivity|].
  destruct r as [|w' r]; [apply whitespace_free_ends, Hw|].
  rewrite join_cons by discriminate.
  rewrite !ends_space_app; [exact IH| |].
  - apply join_nonempty. inversion Hr as [|? ? [H' _] _]; exact H'.
  - intros E. apply app_eq_nil in E as [E _]. discriminate E.
Qed.

Lemma sub_spaces_true_starts (s : str) : starts_space (sub_spaces true s) = false.
Proof.
  induction s as [|c s IH]; [reflexivity|].
  cbn [sub_spaces]. destruct (isspace c) eqn:Hc; [exact IH|]. cbn. exact Hc.
Qed.

Lemma sub_spaces_false (s : str) :
  sub_spaces false s = (if starts_space s then [32] else []) ++ sub_spaces true s.
Proof.
  destruct s as [|c s]; [reflexivity|].
  cbn [sub_spaces starts_space]. destruct (isspace c); reflexivity.
Qed.

Lemma sub_spaces_words (s : str) :
  sub_spaces true s = join [32] (words s) ++ trailing_space s.
Proof.
  induction s as [|c s IH]; [reflexivity|].
  unfold trailing_space in *. cbn [sub_spaces words].
  destruct (isspace c) eqn:Hc.
  - destruct s as [|d s]; [reflexivity|]. exact IH.
  - rewrite sub_spaces_false, IH. destruct s as [|d s].
    + cbn. rewrite Hc. reflexivity.
    + change (ends_space (c :: d :: s)) with (ends_space (d :: s)).
      cbn [starts_space starts_word]. destruct (isspace d) eqn:Hd; cbn [negb].
      * destruct (words (d :: s)) as [|w r] eqn:E.
        -- rewrite (blank_ends_space (d :: s)); [reflexivity| |discriminate].
           apply words_nil_blank, E.
        -- reflexivity.
      * destruct (starts_word_words (d :: s)) as (w & r & E).
        { cbn. rewrite Hd. reflexivity. }
        rewrite E. cbn [cons_head app]. destruct r; reflexivity.
Qed.

Lemma lstrip_id (s : str) : starts_space s = false -> lstrip s = s.
Proof. destruct s as [|c s]; [reflexivity|]. cbn. intros ->. reflexivity. Qed.

(** Line 93 keeps the words of the text, one space between them. *)
Lemma normalize_whitespace_words (s : str) :
  normalize_whitespace s = join [32] (words s).
Proof.
  unfold normalize_whitespace, strip.
  assert (Hl : lstrip (sub_spaces false s) = sub_spaces true s).
  { rewrite sub_spaces_false. destruct (starts_space s).
    - cbn [app]. unfold lstrip. cbn [dropWhile].
      change (isspace 32) with true. cbv iota.
      apply lstrip_id, sub_spaces_true_starts.
    - apply lstrip_id, sub_spaces_true_starts. }
  rewrite Hl, sub_spaces_words.
  pose proof (join_words_ends (words s) (words_well_formed s)) as He.
  unfold trailing_space. destruct (words s) as [|w r] eqn:E; [reflexivity|].
  destruct (ends_space s).
  - rewrite rstrip_snoc. change (isspace 32) with true. cbv iota.
    apply rstrip_id, He.
  - rewrite app_nil_r. apply rstrip_id, He.
Qed.

Lemma words_join (l : list str) : words (join [32] l) = flat_map words l.
Proof.
  induction l as [|p l IH]; [reflexivity|].
  destruct l as [|q l]; [cbn; symmetry; apply app_nil_r|].
  rewrite join_cons by discriminate. cbn [flat_map] in *.
  rewrite words_app.
  - change (words ([32] ++ join [32] (q :: l))) with (words (join [32] (q :: l))).
    rewrite IH. reflexivity.
  - unfold spaced. cbn. rewrite !orb_true_r. reflexivity.
Qed.

Lemma strip_nil_words (s : str) : strip s = [] -> words s = [].
Proof. intros E. rewrite <- words_strip, E. reflexivity. Qed.

Lemma words_stripped (l : list str) :
  flat_map words (List.filter nonempty (List.map strip l)) = flat_map words l.
Proof.
  induction l as [|s l IH]; [reflexivity|].
  cbn [List.map List.filter flat_map].
  destruct (strip s) as [|c r] eqn:E; cbn [nonempty].
  - rewrite (strip_nil_words s E). exact IH.
  - cbn [flat_map]. rewrite <- E, words_strip, IH. reflexivity.
Qed.

(** The text of a scope, normalized: the words of its strings, in
    document order, one space between them. *)
Lemma normalize_get_text (types : option string_class) (scope : soup) :
  normalize_whitespace (get_text (py " ") types scope)
  = join [32] (text_words types scope).
Proof.
  rewrite normalize_whitespace_words. unfold get_text, text_words.
  change (py " ") with [32]. rewrite words_join, words_stripped. reflexivity.
Qed.

(** ** Removal of noise *)

Lemma decompose_all_app (p : tag_test) (t u : soup) :
  decompose_all p (t ++ u) = decompose_all p t ++ decompose_all p u.
Proof. apply flat_map_app. Qed.

Lemma decompose_all_tag (p : tag_test) (n : str) (a : gmap str attr_value)
    (cs t : soup) :
  decompose_all p (Tag n a cs :: t)
  = (if p n a then [] else [Tag n a (decompose_all p cs)]) ++ decompose_all p t.
Proof. reflexivity. Qed.

(** Two removal loops in a row remove what either removes. *)
Lemma decompose_twice (p q : tag_test) (x : node) :
  decompose_all q (decompose p x) = decompose (fun n a => p n a || q n a) x.
Proof.
  induction x as [n a cs IH| | |] using node_induction; try reflexivity.
  cbn [decompose]. destruct (p n a); [reflexivity|].
  unfold decompose_all. cbn [flat_map decompose orb].
  destruct (q n a); [reflexivity|]. rewrite app_nil_r. do 2 f_equal.
  induction IH as [|c cs Hc _ IHcs]; [reflexivity|].
  cbn [flat_map]. rewrite flat_map_app, IHcs. f_equal. exact Hc.
Qed.

Lemma decompose_all_twice (p q : tag_test) (t : soup) :
  decompose_all q (decompose_all p t)
  = decompose_all (fun n a => p n a || q n a) t.
Proof.
  induction t as [|x t IH]; [reflexivity|].
  unfold decompose_all in *. cbn [flat_map].
  rewrite flat_map_app, IH. f_equal. apply decompose_twice.
Qed.

(** The four loops together remove the noise tags, and only them. *)
Lemma remove_noise_eq (t : soup) : remove_noise t = decompose_all is_noise t.
Proof.
  unfold remove_noise.
  rewrite (decompose_all_twice is_dynamic_tag has_noise_class).
  rewrite (decompose_all_twice _ (has_attr (py "data-timestamp"))).
  rewrite decompose_all_twice. reflexivity.
Qed.

Lemma in_context_decompose (R : soup -> soup -> Prop) (p : tag_test) :
  (forall l l', R l l' -> decompose_all p l = decompose_all p l') ->
  forall t t', in_context R t t' -> decompose_all p t = decompose_all p t'.
Proof.
  intros HR t t'. induction 1 as [pre l l' post Hl|pre n a cs cs' post _ IH].
  - rewrite !decompose_all_app, (HR l l' Hl). reflexivity.
  - rewrite !decompose_all_app, !decompose_all_tag, IH. reflexivity.
Qed.

Lemma text_words_app (types : option string_class) (t u : soup) :
  text_words types (t ++ u) = text_words types t ++ text_words types u.
Proof. unfold text_words. rewrite !flat_map_app. reflexivity. Qed.

Lemma text_words_tag (types : option string_class) (n : str)
    (a : gmap str attr_value) (cs t : soup) :
  text_words types (Tag n a cs :: t) = text_words types cs ++ text_words types t.
Proof. unfold text_words. cbn [flat_map all_strings]. apply flat_map_app. Qed.

Lemma in_context_words (types : option string_class) (R : soup -> soup -> Prop)
    (p : tag_test) :
  (forall l l', R l l' ->
     text_words types (decompose_all p l) = text_words types (decompose_all p l')) ->
  forall t t', in_context R t t' ->
    text_words types (decompose_all p t) = text_words types (decompose_all p t').
Proof.
  intros HR t t'. induction 1 as [pre l l' post Hl|pre n a cs cs' post _ IH].
  - rewrite !decompose_all_app, !text_words_app, (HR l l' Hl). reflexivity.
  - rewrite !decompose_all_app, !decompose_all_tag, !text_words_app.
    destruct (p n a); [reflexivity|].
    rewrite !text_words_tag, IH. reflexivity.
Qed.

Lemma noise_added_decompose (l l' : soup) :
  noise_added l l' -> decompose_all is_noise l = decompose_all is_noise l'.
Proof. intros [n a cs Hn]. rewrite decompose_all_tag, Hn. reflexivity. Qed.

Lemma noise_splits_words (types : option string_class) (l l' : soup) :
  noise_splits spaced l l' ->
  text_words types (decompose_all is_noise l)
  = text_words types (decompose_all is_noise l').
Proof.
  intros [x y n a cs Hn Hsp].
  change (decompose_all is_noise [NavigableString (x ++ y)])
    with [NavigableString (x ++ y)].
  change (decompose_all is_noise [NavigableString x; Tag n a cs; NavigableString y])
    with (NavigableString x :: decompose_all is_noise (Tag n a cs :: [NavigableString y])).
  rewrite decompose_all_tag, Hn. unfold text_words.
  destruct types; cbn; [reflexivity|].
  rewrite words_app by exact Hsp. rewrite !app_nil_r. reflexivity.
Qed.

Lemma same_layout_decompose (p : tag_test) (t t' : soup) :
  same_layout t t' -> same_layout (decompose_all p t) (decompose_all p t').
Proof.
  induction 1 as [|s t t' Hs _ IH|s t t' Hs _ IH|s s' t t' Hs _ IH|c t t' _ IH
                 |k s s' t t' Hs _ IH|n a cs cs' t t' _ IHcs _ IH].
  - constructor.
  - apply layout_blank_l; assumption.
  - apply layout_blank_r; assumption.
  - apply layout_string; assumption.
  - apply layout_comment; assumption.
  - apply layout_container; assumption.
  - rewrite !decompose_all_tag. destruct (p n a); [exact IH|].
    apply layout_tag; assumption.
Qed.

Lemma same_layout_words (types : option string_class) (t t' : soup) :
  same_layout t t' -> text_words types t = text_words types t'.
Proof.
  induction 1 as [|s t t' Hs _ IH|s t t' Hs _ IH|s s' t t' Hs _ IH|c t t' _ IH
                 |k s s' t t' Hs _ IH|n a cs cs' t t' _ IHcs _ IH].
  - reflexivity.
  - unfold text_words in *. destruct types; cbn; [exact IH|].
    rewrite (words_blank s Hs). exact IH.
  - unfold text_words in *. destruct types; cbn; [exact IH|].
    rewrite (words_blank s Hs). exact IH.
  - unfold text_words in *. destruct types; cbn; [exact IH|].
    rewrite Hs, IH. reflexivity.
  - exact IH.
  - unfold text_words in *. destruct types as [k'|]; cbn [flat_map all_strings];
      [|exact IH].
    destruct (string_class_eqb k k'); cbn [flat_map app]; [|exact IH].
    rewrite Hs, IH. reflexivity.
  - rewrite !text_words_tag, IHcs, IH. reflexivity.
Qed.

(** Two tags that differ in layout alone read the same class of string. *)
Lemma same_layout_scope_types (e1 e2 : node) :
  same_layout [e1] [e2] -> scope_types e1 = scope_types e2.
Proof.
  intros H. inversion H as [|s t t' Hs H'|s t t' Hs H'| | | |]; subst;
    try reflexivity.
  - inversion H'; subst; reflexivity.
  - inversion H'; subst; reflexivity.
Qed.

(** Without a selector, what is extracted is the words of the strings
    that are left, one space between them. *)
Lemma extract_soup_whole (css : matcher) (t : soup) (selector : option str) :
  selector = None \/ selector = Some [] ->
  extract_soup css t selector
  = Ok (join [32] (text_words None (decompose_all is_noise t))).
Proof.
  intros [-> | ->]; unfold extract_soup; cbn [rbind];
    rewrite normalize_get_text, remove_noise_eq; reflexivity.
Qed.

Lemma extract_soup_same_tree (css : matcher) (t t' : soup) (selector : option str) :
  decompose_all is_noise t = decompose_all is_noise t' ->
  extract_soup css t selector = extract_soup css t' selector.
Proof. intros E. unfold extract_soup. rewrite !remove_noise_eq, E. reflexivity. Qed.

Lemma noise_between_same_tree (t t' : soup) :
  differ_in_noise_between t t' ->
  decompose_all is_noise t = decompose_all is_noise t'.
Proof.
  induction 1 as [t t' H| |t t' _ IH|t u v _ IH1 _ IH2]; try congruence.
  apply (in_context_decompose noise_added is_noise noise_added_decompose _ _ H).
Qed.

Lemma spaced_noise_or_layout_same_words (types : option string_class)
    (t t' : soup) :
  differ_in_spaced_noise_or_layout t t' ->
  text_words types (decompose_all is_noise t)
  = text_words types (decompose_all is_noise t').
Proof.
  induction 1 as [t t' [H|[H|H]]| |t t' _ IH|t u v _ IH1 _ IH2]; try congruence.
  - f_equal. apply (in_context_decompose noise_added is_noise noise_added_decompose _ _ H).
  - apply (in_context_words types (noise_splits spaced) is_noise
             (noise_splits_words types) _ _ H).
  - apply same_layout_words, same_layout_decompose, H.
Qed.

(** ** Normalizer *)

(** C1, as the code has it: two documents that differ only in noise tags
    standing between sibling nodes give the same result with any selector;
    two documents that differ only in noise tags that do not part the two
    halves of a word, or in whitespace layout, give the same content
    without a selector, and with a selector that resolves in both to tags
    that differ only in whitespace layout; the page with the script and the
    page without it both give "Content". *)
Theorem noise_invariance (parse : html_parser) (css : matcher) (h1 h2 : str) :
  (differ_in_noise_between (parse h1) (parse h2) ->
   forall selector,
     extract_content parse css h1 selector = extract_content parse css h2 selector)
  /\ (differ_in_spaced_noise_or_layout (parse h1) (parse h2) ->
      extract_content parse css h1 None = extract_content parse css h2 None)
  /\ (forall c sel e1 e2,
        select_one css (c :: sel) (remove_noise (parse h1)) = Ok (Some e1) ->
        select_one css (c :: sel) (remove_noise (parse h2)) = Ok (Some e2) ->
        same_layout [e1] [e2] ->
        extract_content parse css h1 (Some (c :: sel))
        = extract_content parse css h2 (Some (c :: sel)))
  /\ (parse h1 = page_with_script -> parse h2 = page_plain ->
      extract_content parse css h1 None = Ok (py "Content")
      /\ extract_content parse css h2 None = Ok (py "Content")).
Proof.
  unfold extract_content. split; [|split; [|split]].
  - intros H selector. apply extract_soup_same_tree, noise_between_same_tree, H.
  - intros H. rewrite !extract_soup_whole by (left; reflexivity).
    rewrite (spaced_noise_or_layout_same_words None _ _ H). reflexivity.
  - intros c sel e1 e2 H1 H2 H. unfold extract_soup. cbv zeta.
    rewrite H1, H2. cbn [rbind]. rewrite !normalize_get_text.
    rewrite (same_layout_scope_types _ _ H), (same_layout_words _ _ _ H).
    reflexivity.
  - intros -> ->. rewrite !extract_soup_whole by (left; reflexivity).
    split; vm_compute; reflexivity.
Qed.

Lemma script_between_siblings : differ_in_noise_between page_with_script page_plain.
Proof.
  apply rst_sym, rst_step.
  apply (ctx_below noise_added [] (py "html") ∅ _ _ []).
  apply (ctx_below noise_added [] (py "body") ∅ _ _ []).
  apply (ctx_here noise_added [] [] [el "script" [txt "alert('x')"]] [el "p" [txt "Content"]]).
  apply noise_added_intro. vm_compute. reflexivity.
Qed.

Lemma script_spaced : differ_in_spaced_noise_or_layout page_with_script page_plain.
Proof.
  apply rst_sym, rst_step. left.
  apply (ctx_below noise_added [] (py "html") ∅ _ _ []).
  apply (ctx_below noise_added [] (py "body") ∅ _ _ []).
  apply (ctx_here noise_added [] [] [el "script" [txt "alert('x')"]] [el "p" [txt "Content"]]).
  apply noise_added_intro. vm_compute. reflexivity.
Qed.

Lemma noise_invariance_witness :
  (forall selector,
     extract_content demo_parse by_name html_with_script selector
     = extract_content demo_parse by_name html_plain selector)
  /\ extract_content demo_parse by_name html_with_script (Some (py "p"))
     = extract_content demo_parse by_name html_plain (Some (py "p"))
  /\ extract_content demo_parse by_name html_with_script None = Ok (py "Content")
  /\ extract_content demo_parse by_name html_plain None = Ok (py "Content").
Proof.
  assert (E1 : demo_parse html_with_script = page_with_script) by (vm_compute; reflexivity).
  assert (E2 : demo_parse html_plain = page_plain) by (vm_compute; reflexivity).
  pose proof (noise_invariance demo_parse by_name html_with_script html_plain)
    as (Hsel & Hwhole & Hscope & Hex).
  split; [|split; [|split]].
  - apply Hsel. rewrite E1, E2. exact script_between_siblings.
  - apply (Hscope 112 [] (el "p" [txt "Content"]) (el "p" [txt "Content"])).
    + vm_compute. reflexivity.
    + vm_compute. reflexivity.
    + apply layout_tag; [|constructor].
      apply layout_string; [reflexivity|constructor].
  - rewrite Hwhole; [exact (proj2 (Hex E1 E2))|].
    rewrite E1, E2. exact script_spaced.
  - exact (proj2 (Hex E1 E2)).
Defined.

(** C1, as it is stated, fails when a noise tag stands inside a word: the
    two documents differ only in a script tag, and their contents are
    "Hello World" and "HelloWorld". *)
Lemma noise_inside_a_word_shows :
  differ_in_noise_or_layout (word_parse html_split_word) (word_parse html_one_word)
  /\ extract_content word_parse by_name html_split_word None = Ok (py "Hello World")
  /\ extract_content word_parse by_name html_one_word None = Ok (py "HelloWorld")
  /\ extract_content word_parse by_name html_split_word None
     <> extract_content word_parse by_name html_one_word None.
Proof.
  assert (E1 : word_parse html_split_word = page_split_word) by (vm_compute; reflexivity).
  assert (E2 : word_parse html_one_word = page_one_word) by (vm_compute; reflexivity).
  assert (R1 : extract_content word_parse by_name html_split_word None = Ok (py "Hello World"))
    by (vm_compute; reflexivity).
  assert (R2 : extract_content word_parse by_name html_one_word None = Ok (py "HelloWorld"))
    by (vm_compute; reflexivity).
  repeat split; try assumption.
  - rewrite E1, E2. apply rst_sym, rst_step. right. left.
    apply (ctx_below (noise_splits any_cut) [] (py "p") ∅ _ _ []).
    apply (ctx_here (noise_splits any_cut) []
             [NavigableString (py "Hello" ++ py "World")]
             [NavigableString (py "Hello"); el "script" [txt "x"]; NavigableString (py "World")]
             []).
    apply noise_splits_intro; [vm_compute|]; reflexivity.
  - rewrite R1, R2. vm_compute. discriminate.
Qed.









(** ** Tags and their paths *)

Lemma tags_at_tag (path : list nat) (n : str) (a : gmap str attr_value) (cs : soup) :
  tags_at path (Tag n a cs) = (path, Tag n a cs) :: tags_from path 0 cs.
Proof.
  cbn [tags_at]. f_equal. generalize 0%nat.
  induction cs as [|c cs IH]; intros i; [reflexivity|].
  cbn [tags_from]. rewrite IH. reflexivity.
Qed.

Lemma node_at_cons (c : node) (l : soup) (k : nat) (q : list nat) :
  node_at (c :: l) (S k :: q) = node_at l (k :: q).
Proof. destruct q; reflexivity. Qed.

Lemma node_at_head (c : node) (l : soup) (q : list nat) :
  node_at (c :: l) (0%nat :: q) = node_under c q.
Proof. destruct q; [reflexivity|]. destruct c; reflexivity. Qed.

Lemma tags_from_paths (l : soup) :
  Forall (fun x => forall pre p e, In (p, e) (tags_at pre x) ->
                   exists q, p = pre ++ q /\ node_under x q = Some e) l ->
  forall pre i p e, In (p, e) (tags_from pre i l) ->
  exists k q, p = pre ++ (i + k)%nat :: q /\ node_at l (k :: q) = Some e.
Proof.
  induction 1 as [|c l Hc _ IH]; intros pre i p e; cbn [tags_from]; [intros []|].
  intros [Hin|Hin]%in_app_or.
  - destruct (Hc _ _ _ Hin) as (q & -> & Hq). exists 0%nat, q.
    rewrite <- app_assoc, Nat.add_0_r, node_at_head. split; [reflexivity|exact Hq].
  - destruct (IH _ _ _ _ Hin) as (k & q & -> & Hq). exists (S k), q.
    rewrite node_at_cons, Nat.add_succ_r. split; [reflexivity|exact Hq].
Qed.

Lemma tags_at_paths (x : node) (pre p : list nat) (e : node) :
  In (p, e) (tags_at pre x) -> exists q, p = pre ++ q /\ node_under x q = Some e.
Proof.
  revert pre p e.
  induction x as [n a cs IH| | |] using node_induction; intros pre p e;
    [|intros []|intros []|intros []].
  rewrite tags_at_tag. intros [[= <- <-]|Hin].
  - exists []. rewrite app_nil_r. split; reflexivity.
  - destruct (tags_from_paths cs IH _ _ _ _ Hin) as (k & q & -> & Hq).
    exists (k :: q). split; [reflexivity|exact Hq].
Qed.

(** Every pair of [tags] is a tag of the tree with the path that leads
    to it. *)
Lemma tags_node_at (t : soup) (p : list nat) (e : node) :
  In (p, e) (tags t) -> node_at t p = Some e.
Proof.
  intros Hin. unfold tags in Hin.
  assert (Hall : Forall (fun x => forall pre p e, In (p, e) (tags_at pre x) ->
                           exists q, p = pre ++ q /\ node_under x q = Some e) t).
  { apply Forall_forall. intros x _. apply tags_at_paths. }
  destruct (tags_from_paths t Hall _ _ _ _ Hin) as (k & q & -> & Hq). exact Hq.
Qed.

(** The first element a filter keeps: all before it were dropped. *)
Lemma filter_first {A : Type} (f : A -> bool) (l : list A) (x : A) (rest : list A) :
  List.filter f l = x :: rest ->
  exists before after,
    l = before ++ x :: after /\ f x = true /\ Forall (fun y => f y = false) before.
Proof.
  induction l as [|y l IH]; [discriminate|].
  cbn [List.filter]. destruct (f y) eqn:Hy.
  - intros [= -> _]. exists [], l. repeat split; [exact Hy|constructor].
  - intros H. destruct (IH H) as (before & after & -> & Hx & Hb).
    exists (y :: before), after. repeat split; [exact Hx|].
    constructor; assumption.
Qed.

(** C8, as the code has it: a selector that is given (a non-empty
    string) is handed to the engine and resolved on the tree left by the
    removal loops.  When the engine cannot read it, [extract_content]
    raises the syntax error of the engine, which is not the error of a
    selector that matched nothing.  When the engine reads it and no tag of
    that tree matches, [extract_content] raises the error of the selector
    that matched nothing, and it raises in that case only; when some tag
    matches, the text is taken from the first one in document order: a tag
    of that tree, with every tag before it failing the selector, read for
    the class of string that tag reads. *)
Theorem selector_resolution (parse : html_parser) (css : matcher)
    (html : str) (c : N) (sel : str) :
  let selector := c :: sel in
  let t := remove_noise (parse html) in
  (css selector = None ->
   extract_content parse css html (Some selector) = Raise SelectorSyntaxError
   /\ forall s, extract_content parse css html (Some selector)
                <> Raise (MonitorError (SelectorNoMatch s)))
  /\ (forall m : tag_matcher,
        css selector = Some m ->
        (select m t = [] ->
         extract_content parse css html (Some selector)
         = Raise (MonitorError (SelectorNoMatch selector)))
        /\ (forall e, extract_content parse css html (Some selector) = Raise e ->
                     select m t = [])
        /\ (forall path element rest,
              select m t = (path, element) :: rest ->
              extract_content parse css html (Some selector)
              = Ok (normalize_whitespace
                      (get_text (py " ") (scope_types element) [element]))
              /\ node_at t path = Some element
              /\ exists before after,
                   tags t = before ++ (path, element) :: after
                   /\ m t path = true
                   /\ Forall (fun pe => m t (fst pe) = false) before)).
Proof.
  intros selector t. subst selector t.
  unfold extract_content, extract_soup, select_one. cbv zeta.
  set (t := remove_noise (parse html)). split.
  - intros ->. cbn [rbind]. split; [reflexivity|discriminate].
  - intros m ->. cbn [rbind]. split; [|split].
    + intros ->. reflexivity.
    + intros e. destruct (select m t); [reflexivity|discriminate].
    + intros path element rest E. rewrite E. split; [reflexivity|].
      destruct (filter_first (fun pe => m t (fst pe)) (tags t) (path, element) rest E)
        as (before & after & Ht & Hm' & Hb).
      split; [|exists before, after; auto].
      apply tags_node_at. rewrite Ht. apply in_elt.
Qed.

Lemma selector_resolution_witness :
  let page := [el "body" [el "iframe" [el "main" [txt "inner"]];
                           el "p" [txt "outer"];
                           el "main" [txt " Main "; el "b" [txt "Content"]];
                           el "main" [txt "Second"]]] in
  let parse := parse_of [(py "page", page)] in
  extract_content parse by_name (py "page") (Some (py "table"))
  = Raise (MonitorError (SelectorNoMatch (py "table")))
  /\ extract_content parse by_name (py "page") (Some (py "main"))
     = Ok (py "Main Content")
  /\ extract_content parse by_name (py "page") (Some (py "main >"))
     = Raise SelectorSyntaxError.
Proof.
  intros page parse.
  split; [|split].
  - refine (proj1 (proj2 (selector_resolution parse by_name (py "page") 116 (py "able"))
                     _ _) _).
    + vm_compute. reflexivity.
    + vm_compute. reflexivity.
  - refine (eq_trans
              (proj1 (proj2 (proj2
                 (proj2 (selector_resolution parse by_name (py "page") 109 (py "ain"))
                    _ _))
                 [0; 1]%nat (el "main" [txt " Main "; el "b" [txt "Content"]])
                 [([0; 2]%nat, el "main" [txt "Second"])] _)) _).
    + vm_compute. reflexivity.
    + vm_compute. reflexivity.
    + vm_compute. reflexivity.
  - refine (proj1 (proj1 (selector_resolution parse by_name (py "page") 109
                            (py "ain >")) _)).
    vm_compute. reflexivity.
Defined.

(** C8, as it is stated, fails on a selector the engine cannot read: the
    engine raises its syntax error, which is not the error of a selector
    that matched nothing. *)
Lemma malformed_selector_raises :
  extract_content demo_parse by_name html_plain (Some (py "p["))
  = Raise SelectorSyntaxError
  /\ extract_content demo_parse by_name html_plain (Some (py "p["))
     <> Raise (MonitorError (SelectorNoMatch (py "p["))).
Proof.
  assert (E : extract_content demo_parse by_name html_plain (Some (py "p["))
              = Raise SelectorSyntaxError) by (vm_compute; reflexivity).
  split; [exact E|]. rewrite E. discriminate.
Qed.

(** * Further properties *)

(** ** What the removal loops leave *)

Lemma decompose_clean (x : node) :
  has_noise x = false -> decompose is_noise x = [x].
Proof.
  induction x as [n a cs IH| | |] using node_induction; try reflexivity.
  cbn [has_noise decompose]. intros [Hn Hcs]%orb_false_iff. rewrite Hn.
  do 2 f_equal. induction IH as [|c cs Hc _ IHcs]; [reflexivity|].
  cbn [existsb] in Hcs. apply orb_false_iff in Hcs as [Hc' Hcs'].
  cbn [flat_map]. rewrite (Hc Hc'), (IHcs Hcs'). reflexivity.
Qed.

Lemma decompose_all_clean (t : soup) :
  existsb has_noise t = false -> decompose_all is_noise t = t.
Proof.
  induction t as [|x t IH]; [reflexivity|].
  cbn [existsb]. intros [Hx Ht]%orb_false_iff.
  unfold decompose_all in *. cbn [flat_map].
  rewrite (decompose_clean x Hx), (IH Ht). reflexivity.
Qed.

Lemma existsb_app_false {A : Type} (f : A -> bool) (l l' : list A) :
  existsb f l = false -> existsb f l' = false -> existsb f (l ++ l') = false.
Proof. intros H H'. rewrite existsb_app, H, H'. reflexivity. Qed.

Lemma decompose_no_noise (x : node) :
  existsb has_noise (decompose is_noise x) = false.
Proof.
  induction x as [n a cs IH| | |] using node_induction; try reflexivity.
  cbn [decompose]. destruct (is_noise n a) eqn:Hn; [reflexivity|].
  cbn [existsb has_noise]. rewrite Hn, orb_false_r. cbn [orb].
  induction IH as [|c cs Hc _ IHcs]; [reflexivity|].
  cbn [flat_map]. apply existsb_app_false; assumption.
Qed.

Lemma decompose_all_no_noise (t : soup) :
  existsb has_noise (decompose_all is_noise t) = false.
Proof.
  induction t as [|x t IH]; [reflexivity|].
  unfold decompose_all in *. cbn [flat_map].
  apply existsb_app_false; [apply decompose_no_noise|exact IH].
Qed.

(** X1: after the four removal loops no noise tag is left at any depth
    of the tree, and running the loops again removes nothing more. *)
Theorem remove_noise_leaves_no_noise (t : soup) :
  existsb has_noise (remove_noise t) = false
  /\ remove_noise (remove_noise t) = remove_noise t.
Proof.
  rewrite !remove_noise_eq. split.
  - apply decompose_all_no_noise.
  - apply decompose_all_clean, decompose_all_no_noise.
Qed.

(** X2: the removal loops remove nothing but noise: a tree in which no
    tag is a noise tag comes out as it went in, with every tag, string and
    comment in place; and what is extracted from it is the words of its
    plain strings, those that do not stand in a [template], [rt] or [rp]
    tag. *)
Theorem remove_noise_keeps_clean_tree (parse : html_parser) (css : matcher)
    (html : str) :
  existsb has_noise (parse html) = false ->
  remove_noise (parse html) = parse html
  /\ extract_content parse css html None
     = Ok (join [32] (text_words None (parse html))).
Proof.
  intros Hclean.
  assert (E : remove_noise (parse html) = parse html)
    by (rewrite remove_noise_eq; apply decompose_all_clean, Hclean).
  split; [exact E|]. unfold extract_content.
  rewrite extract_soup_whole by (left; reflexivity).
  rewrite <- remove_noise_eq, E. reflexivity.
Qed.

Lemma remove_noise_keeps_clean_tree_witness :
  let parse := parse_of [(py "page", page_with_template)] in
  remove_noise (parse (py "page")) = parse (py "page")
  /\ extract_content parse by_name (py "page") None
     = Ok (join [32] (text_words None (parse (py "page")))).
Proof.
  intros parse.
  apply (remove_noise_keeps_clean_tree parse by_name (py "page")).
  vm_compute. reflexivity.
Defined.

(** ** The shape of the extracted content *)

Lemma word_words (w : str) : is_word w -> words w = [w].
Proof.
  intros [Hne Hw]. induction w as [|c w IH]; [congruence|].
  unfold whitespace_free in Hw. cbn [existsb] in Hw.
  apply orb_false_iff in Hw as [Hc Hw]. cbn [words]. rewrite Hc.
  destruct w as [|d w]; [reflexivity|].
  assert (Hd : isspace d = false).
  { cbn [existsb] in Hw. apply orb_false_iff in Hw as [Hd _]. exact Hd. }
  cbn [starts_word]. rewrite Hd. cbn [negb].
  rewrite IH; [reflexivity|discriminate|exact Hw].
Qed.

Lemma words_join_words (ws : list str) :
  Forall is_word ws -> words (join [32] ws) = ws.
Proof.
  intros H. rewrite words_join.
  induction H as [|w ws Hw _ IH]; [reflexivity|].
  cbn [flat_map]. rewrite (word_words w Hw), IH. reflexivity.
Qed.

Lemma text_words_well_formed (types : option string_class) (t : soup) :
  Forall is_word (text_words types t).
Proof.
  unfold text_words.
  induction (flat_map (all_strings types) t) as [|s l IH]; [constructor|].
  cbn [flat_map]. apply Forall_app. split; [apply words_well_formed|exact IH].
Qed.

Lemma word_starts (w : str) (r : str) : is_word w -> starts_space (w ++ r) = false.
Proof.
  intros [Hne Hw]. destruct w as [|c w]; [congruence|].
  unfold whitespace_free in Hw. cbn [existsb] in Hw.
  apply orb_false_iff in Hw as [Hc _]. exact Hc.
Qed.

Lemma join_words_starts (ws : list str) :
  Forall is_word ws -> starts_space (join [32] ws) = false.
Proof.
  intros [|w r Hw Hr]; [reflexivity|].
  destruct r; [rewrite <- (app_nil_r w)|rewrite join_cons by discriminate];
    apply word_starts, Hw.
Qed.

Lemma no_double_space_word (w r : str) :
  whitespace_free w -> no_double_space (w ++ r) = no_double_space r.
Proof.
  unfold whitespace_free. induction w as [|c w IH]; [reflexivity|].
  cbn [existsb app no_double_space]. intros [Hc Hw]%orb_false_iff.
  rewrite Hc. cbn [andb negb]. apply IH, Hw.
Qed.

Lemma join_words_no_double (ws : list str) :
  Forall is_word ws -> no_double_space (join [32] ws) = true.
Proof.
  induction 1 as [|w r Hw Hr IH]; [reflexivity|].
  destruct r as [|w' r].
  - cbn [join]. rewrite <- (app_nil_r w).
    apply no_double_space_word, Hw.
  - rewrite join_cons by discriminate.
    rewrite no_double_space_word by apply Hw.
    cbn [app no_double_space].
    rewrite (join_words_starts (w' :: r) Hr), andb_false_r. exact IH.
Qed.

Lemma join_words_spaces (ws : list str) :
  Forall is_word ws ->
  Forall (fun c => isspace c = true -> c = 32) (join [32] ws).
Proof.
  assert (Hword : forall w, is_word w -> Forall (fun c => isspace c = true -> c = 32) w).
  { intros w [_ Hw]. unfold whitespace_free in Hw.
    induction w as [|c w IH]; [constructor|].
    cbn [existsb] in Hw. apply orb_false_iff in Hw as [Hc Hw].
    constructor; [congruence|exact (IH Hw)]. }
  induction 1 as [|w r Hw Hr IH]; [constructor|].
  destruct r as [|w' r]; [exact (Hword w Hw)|].
  rewrite join_cons by discriminate.
  apply Forall_app. split; [exact (Hword w Hw)|].
  constructor; [reflexivity|exact IH].
Qed.

(** What [extract_content] returns is the words of a scope, one space
    between them. *)
Lemma extract_content_scope (parse : html_parser) (css : matcher)
    (html : str) (selector : option str) (content : str) :
  extract_content parse css html selector = Ok content ->
  exists types scope, content = join [32] (text_words types scope).
Proof.
  unfold extract_content, extract_soup. cbv zeta.
  destruct selector as [[|c sel]|].
  - cbn [rbind]. intros [= <-]. eexists _, _. apply normalize_get_text.
  - destruct (select_one css (c :: sel) _) as [[element|]|e]; cbn [rbind];
      [|discriminate|discriminate].
    intros [= <-]. eexists _, _. apply normalize_get_text.
  - cbn [rbind]. intros [= <-]. eexists _, _. apply normalize_get_text.
Qed.

(** X3: whatever [extract_content] returns has no whitespace at its
    ends, no whitespace character other than the space, and no two spaces
    in a row; normalizing it again gives it back. *)
Theorem extract_content_canonical (parse : html_parser) (css : matcher)
    (html : str) (selector : option str) (content : str) :
  extract_content parse css html selector = Ok content ->
  starts_space content = false
  /\ ends_space content = false
  /\ Forall (fun c => isspace c = true -> c = 32) content
  /\ no_double_space content = true
  /\ normalize_whitespace content = content.
Proof.
  intros H. destruct (extract_content_scope _ _ _ _ _ H) as (types & scope & ->).
  pose proof (text_words_well_formed types scope) as Hw.
  repeat match goal with |- _ /\ _ => split end.
  - apply join_words_starts, Hw.
  - apply join_words_ends, Hw.
  - apply join_words_spaces, Hw.
  - apply join_words_no_double, Hw.
  - rewrite normalize_whitespace_words, words_join_words by exact Hw. reflexivity.
Qed.

Lemma extract_content_canonical_witness :
  let page := [el "p" [NavigableString (py "  Hello    World" ++ [10; 10; 9] ++ py "Test ")];
               el "p" [NavigableString [0xA0; 0x2003]]] in
  let parse := parse_of [(py "page", page)] in
  extract_content parse by_name (py "page") None = Ok (py "Hello World Test")
  /\ no_double_space (py "Hello World Test") = true
  /\ normalize_whitespace (py "Hello World Test") = py "Hello World Test".
Proof.
  intros page parse.
  assert (E : extract_content parse by_name (py "page") None = Ok (py "Hello World Test"))
    by (vm_compute; reflexivity).
  split; [exact E|].
  destruct (extract_content_canonical parse by_name (py "page") None _ E)
    as (_ & _ & _ & Hd & Hn).
  split; assumption.
Defined.

Lemma extract_whole_words (css : matcher) (t : soup) (selector : option str) :
  selector = None \/ selector = Some [] ->
  exists content,
    extract_soup css t selector = Ok content
    /\ words content = text_words None (remove_noise t).
Proof.
  intros Hsel.
  rewrite (extract_soup_whole css _ selector Hsel), <- remove_noise_eq.
  eexists. split; [reflexivity|].
  apply words_join_words, text_words_well_formed.
Qed.

(** X4: once the document is parsed, the extraction without a selector
    (lines 69 to 95) does not fail, and the words of the content are the
    words of the plain strings the removal loops left, in document order:
    of those strings no word is lost, added, joined to another or moved;
    the strings of a [template], [rt] or [rp] tag are not read.  A
    document that parses to the tree therefore extracts to that
    content. *)
Theorem extract_content_words (css : matcher) (t : soup) (selector : option str) :
  selector = None \/ selector = Some [] ->
  exists content,
    extract_soup css t selector = Ok content
    /\ words content = text_words None (remove_noise t)
    /\ forall (parse : html_parser) (html : str),
         parse html = t -> extract_content parse css html selector = Ok content.
Proof.
  intros Hsel.
  destruct (extract_whole_words css t selector Hsel) as (content & E & Hw).
  exists content. split; [exact E|]. split; [exact Hw|].
  intros parse html <-. exact E.
Qed.

Lemma extract_content_words_witness :
  exists content,
    extract_soup by_name (page_split_word ++ page_with_template) None = Ok content
    /\ words content = [py "Hello"; py "World"; py "a"; py "b"].
Proof.
  destruct (extract_content_words by_name (page_split_word ++ page_with_template) None)
    as (content & E & Hw & _).
  - left. reflexivity.
  - exists content. split; [exact E|]. rewrite Hw. vm_compute. reflexivity.
Defined.

(** ** The selected scope within the document *)

Lemma node_at_strings (types : option string_class) (path : list nat) :
  forall (t : soup) (e : node),
    node_at t path = Some e ->
    exists before after,
      flat_map (all_strings types) t = before ++ all_strings types e ++ after.
Proof.
  induction path as [|i path IH]; intros t e; [discriminate|].
  destruct path as [|j path].
  - cbn [node_at]. intros H. apply nth_error_split in H as (l1 & l2 & -> & _).
    exists (flat_map (all_strings types) l1), (flat_map (all_strings types) l2).
    rewrite flat_map_app. reflexivity.
  - cbn [node_at]. destruct (nth_error t i) as [[n a cs| | |]|] eqn:E; try discriminate.
    intros H. destruct (IH cs e H) as (before & after & Hcs).
    apply nth_error_split in E as (l1 & l2 & -> & _).
    exists (flat_map (all_strings types) l1 ++ before),
           (after ++ flat_map (all_strings types) l2).
    rewrite flat_map_app. cbn [flat_map all_strings].
    rewrite Hcs, <- !app_assoc. reflexivity.
Qed.

(** X5: a selector that resolves to a tag other than [template], [rt]
    and [rp] narrows the content and never adds to it: on a parsed
    document the extraction with the selector returns, and its words
    stand, in the same order and side by side, among the words extracted
    from the whole document. *)
Theorem selected_content_within_whole (css : matcher) (t : soup) (c : N)
    (sel : str) (element : node) :
  select_one css (c :: sel) (remove_noise t) = Ok (Some element) ->
  scope_types element = None ->
  exists selected whole before after,
    extract_soup css t (Some (c :: sel)) = Ok selected
    /\ extract_soup css t None = Ok whole
    /\ words whole = before ++ words selected ++ after.
Proof.
  intros Hsel Htypes.
  destruct (extract_whole_words css t None) as (whole & Hwhole & Hw);
    [left; reflexivity|].
  unfold extract_soup at 1. cbv zeta. rewrite Hsel. cbn [rbind].
  rewrite Htypes, normalize_get_text.
  eexists _, whole. rewrite Hwhole, Hw.
  rewrite words_join_words by apply text_words_well_formed.
  revert Hsel. unfold select_one.
  set (t' := remove_noise t).
  destruct (css (c :: sel)) as [m|]; [|discriminate].
  destruct (select m t') as [|[path e] rest] eqn:E; [discriminate|].
  cbn [snd]. intros [= ->].
  assert (Hin : In (path, element) (tags t')).
  { apply (filter_In (fun pe => m t' (fst pe)) (path, element) (tags t')).
    unfold select in E. rewrite E. left. reflexivity. }
  destruct (node_at_strings None path t' element (tags_node_at t' path element Hin))
    as (before & after & Hs).
  exists (flat_map words before), (flat_map words after).
  split; [reflexivity|]. split; [reflexivity|].
  unfold text_words. rewrite Hs, !flat_map_app. cbn [flat_map].
  rewrite app_nil_r. reflexivity.
Qed.

Lemma selected_content_within_whole_witness :
  let page := [el "body" [el "h1" [txt "Header"];
                           el "main" [txt "Main"; el "b" [txt " Content "]];
                           el "p" [txt "Footer"]]] in
  exists selected whole before after,
    extract_soup by_name page (Some (py "main")) = Ok selected
    /\ extract_soup by_name page None = Ok whole
    /\ words whole = before ++ words selected ++ after.
Proof.
  intros page.
  apply (selected_content_within_whole by_name page 109 (py "ain")
           (el "main" [txt "Main"; el "b" [txt " Content "]])).
  - vm_compute. reflexivity.
  - reflexivity.
Defined.

(** ** More on the baseline store *)

Lemma universal_newlines_starts (s : str) :
  starts_word (universal_newlines s) = starts_word s.
Proof.
  destruct s as [|c s]; [reflexivity|]. cbn [universal_newlines].
  destruct (N.eqb_spec c 13) as [->|_]; reflexivity.
Qed.

Lemma universal_newlines_words (s : str) :
  words (universal_newlines s) = words s.
Proof.
  induction s as [|c s IH]; [reflexivity|]. cbn [universal_newlines].
  destruct (N.eqb_spec c 13) as [->|Hc].
  - change (words (13 :: s)) with (words s).
    destruct s as [|d s]; [reflexivity|].
    destruct (N.eqb_spec d 10) as [->|Hd].
    + rewrite <- IH. reflexivity.
    + rewrite <- IH. reflexivity.
  - cbn [words]. rewrite IH, universal_newlines_starts. reflexivity.
Qed.

Lemma trimmed_single_word (s v : str) :
  starts_space s = false -> ends_space s = false -> words s = [v] -> s = v.
Proof.
  revert v. induction s as [|c s IH]; intros v Hs He; [discriminate|].
  cbn [starts_space] in Hs. cbn [words]. rewrite Hs.
  destruct (starts_word s) eqn:Hw.
  - destruct (starts_word_words s Hw) as (w & r & E). rewrite E.
    cbn [cons_head]. intros [= <- ->]. f_equal. apply IH.
    + destruct s as [|d s]; [reflexivity|]. cbn in Hw |- *.
      apply negb_true_iff, Hw.
    + destruct s as [|d s]; [discriminate Hw|exact He].
    + exact E.
  - intros [= <- Hnil]. f_equal. destruct s as [|d s]; [reflexivity|].
    exfalso. change (ends_space (c :: d :: s)) with (ends_space (d :: s)) in He.
    rewrite (blank_ends_space (d :: s)) in He; [discriminate| |discriminate].
    apply words_nil_blank, Hnil.
Qed.

(** X6: a baseline file that holds one word, with any whitespace before
    and after it (spaces, a final newline, a carriage return and a
    newline), loads as that word. *)
Theorem load_previous_hash_single_word (key payload v : str) (w : bool)
    (fs : filesystem) :
  fs !! key = Some (File payload true w) ->
  words payload = [v] ->
  load_previous_hash key fs = (Ok (Some v), fs).
Proof.
  intros E Hv. rewrite load_previous_hash_eq, E. do 3 f_equal.
  destruct (strip_trimmed (universal_newlines payload)) as [Hs He].
  apply trimmed_single_word; [exact Hs|exact He|].
  rewrite words_strip, universal_newlines_words. exact Hv.
Qed.

Lemma load_previous_hash_single_word_witness :
  let fs : filesystem :=
    {[ py "last_hash.txt" := File ([9] ++ hash_of_Content ++ [32; 13; 10]) true false ]} in
  load_previous_hash (py "last_hash.txt") fs = (Ok (Some hash_of_Content), fs).
Proof.
  intros fs.
  apply (load_previous_hash_single_word (py "last_hash.txt")
           ([9] ++ hash_of_Content ++ [32; 13; 10]) hash_of_Content false fs).
  - vm_compute. reflexivity.
  - vm_compute. reflexivity.
Defined.

(** X7: [save_hash] replaces what the file held: after two saves at a
    usable path, [load_previous_hash] returns the second value, and the
    file system is the one a single save of the second value gives. *)
Theorem save_hash_overwrites (key v1 v2 : str) (fs : filesystem) :
  usable key fs ->
  existsb is_surrogate v1 = false -> existsb is_surrogate v2 = false ->
  whitespace_free v2 ->
  exists fs1 fs2,
    save_hash key v1 fs = (Ok tt, fs1)
    /\ save_hash key v2 fs1 = (Ok tt, fs2)
    /\ save_hash key v2 fs = (Ok tt, fs2)
    /\ load_previous_hash key fs2 = (Ok (Some v2), fs2).
Proof.
  intros Hu H1 H2 Hw.
  exists (<[key := File v1 true true]> (snd (mkdir_parents key fs))),
         (<[key := File v2 true true]> (snd (mkdir_parents key fs))).
  split; [apply save_hash_usable; assumption|]. split; [|split].
  - rewrite save_hash_usable; [|right; left; exists v1; apply lookup_insert_eq|exact H2].
    rewrite (mkdir_parents_present _ _ v1 true true) by apply lookup_insert_eq.
    cbn [snd]. rewrite insert_insert_eq. reflexivity.
  - apply save_hash_usable; assumption.
  - apply load_after_write, Hw.
Qed.

Lemma save_hash_overwrites_witness :
  let fs : filesystem := {[ py "hash.txt" := File (py "old_hash") true true ]} in
  exists fs1 fs2,
    save_hash (py "hash.txt") (py "middle") fs = (Ok tt, fs1)
    /\ save_hash (py "hash.txt") (py "new_hash") fs1 = (Ok tt, fs2)
    /\ save_hash (py "hash.txt") (py "new_hash") fs = (Ok tt, fs2)
    /\ load_previous_hash (py "hash.txt") fs2 = (Ok (Some (py "new_hash")), fs2).
Proof.
  intros fs.
  apply (save_hash_overwrites (py "hash.txt") (py "middle") (py "new_hash") fs).
  - right. left. exists (py "old_hash"). vm_compute. reflexivity.
  - reflexivity.
  - reflexivity.
  - reflexivity.
Defined.

Lemma save_hash_frame (path v : str) (fs fs' : filesystem) (r : result unit) :
  save_hash path v fs = (r, fs') ->
  forall other, other <> path ->
    fs' !! other = fs !! other
    \/ (In other (parents path) /\ fs !! other = None
        /\ fs' !! other = Some Directory).
Proof.
  unfold save_hash, bind. intros H other Hne.
  pose proof (mkdir_parents_frame path fs other) as Hm.
  destruct (mkdir_parents path fs) as [[[]|e] fs1]; cbn [snd] in Hm.
  - rewrite (write_text_frame _ _ _ _ _ H other Hne). exact Hm.
  - injection H as _ <-. exact Hm.
Qed.

(** X8: the store is one file and the directories above it:
    [load_previous_hash] leaves the file system as it was; [save_hash] and
    [check_for_changes], whatever they return or raise, leave every path
    other than the hash path as it was, but for the directories above the
    hash path that were missing, which they may make. *)
Theorem store_is_one_file_below_its_directories (get : http) (parse : html_parser)
    (css : matcher) (config : Config) (v : str) (fs : filesystem) :
  snd (load_previous_hash (hash_storage_path config) fs) = fs
  /\ (forall other, other <> hash_storage_path config ->
        let fs' := snd (save_hash (hash_storage_path config) v fs) in
        fs' !! other = fs !! other
        \/ (In other (parents (hash_storage_path config)) /\ fs !! other = None
            /\ fs' !! other = Some Directory))
  /\ (forall other, other <> hash_storage_path config ->
        let fs' := snd (check_for_changes get parse css config fs) in
        fs' !! other = fs !! other
        \/ (In other (parents (hash_storage_path config)) /\ fs !! other = None
            /\ fs' !! other = Some Directory)).
Proof.
  split; [rewrite load_previous_hash_eq; reflexivity|]. split.
  - intros other Hne. cbv zeta.
    destruct (save_hash _ v fs) as [r fs'] eqn:E.
    apply (save_hash_frame _ _ _ _ _ E other Hne).
  - intros other Hne. cbv zeta.
    destruct (check_for_changes get parse css config fs) as [r fs'] eqn:Hc.
    cbn [snd]. revert Hc. unfold check_for_changes, bind at 1 2 3, lift.
    destruct (fetch_page_content _ _ _) as [html|];
      [|intros [= _ <-]; left; reflexivity].
    destruct (extract_content _ _ _ _) as [content|];
      [|intros [= _ <-]; left; reflexivity].
    destruct (compute_hash content) as [h|];
      [|intros [= _ <-]; left; reflexivity].
    unfold bind at 1. rewrite load_previous_hash_eq.
    assert (Hsave : forall (k : unit -> io (bool * str)),
               (forall u fs0, snd (k u fs0) = fs0) ->
               bind (save_hash (hash_storage_path config) h) k fs = (r, fs') ->
               fs' !! other = fs !! other
               \/ (In other (parents (hash_storage_path config)) /\ fs !! other = None
                   /\ fs' !! other = Some Directory)).
    { intros k Hk. unfold bind.
      destruct (save_hash _ h fs) as [[u|e] fs1] eqn:E.
      - intros Hk'. pose proof (Hk u fs1) as Hk2. rewrite Hk' in Hk2.
        cbn [snd] in Hk2. subst fs1. apply (save_hash_frame _ _ _ _ _ E other Hne).
      - intros [= _ <-]. apply (save_hash_frame _ _ _ _ _ E other Hne). }
    destruct (fs !! hash_storage_path config) as [[payload [] w|w| | |]|];
      try (intros [= _ <-]; left; reflexivity); try (apply Hsave; reflexivity).
    destruct (str_eqb h _);
      [intros [= _ <-]; left; reflexivity|apply Hsave; reflexivity].
Qed.

Lemma store_is_one_file_below_its_directories_witness :
  let get := serve 200 "OK" html_plain in
  let fs : filesystem := {[ py "notes.txt" := File (py "keep me") true true ]} in
  let fs' := snd (check_for_changes get demo_parse by_name nested_config fs) in
  fs' !! py "notes.txt" = fs !! py "notes.txt"
  /\ fs' !! py "data" = Some Directory
  /\ fs' !! py "data/seen" = Some Directory.
Proof.
  intros get fs fs'.
  pose proof (proj2 (proj2 (store_is_one_file_below_its_directories
                              get demo_parse by_name nested_config [] fs))) as H.
  cbv zeta in H. fold fs' in H.
  assert (Hnotes : fs !! py "notes.txt" = Some (File (py "keep me") true true))
    by (vm_compute; reflexivity).
  assert (Hdata : fs' !! py "data" = Some Directory) by (vm_compute; reflexivity).
  assert (Hseen : fs' !! py "data/seen" = Some Directory) by (vm_compute; reflexivity).
  split; [|split; assumption].
  destruct (H (py "notes.txt")) as [E|(_ & E & _)].
  - vm_compute. discriminate.
  - exact E.
  - rewrite Hnotes in E. discriminate E.
Defined.

(** ** More on the change evaluator *)

(** The stages of an evaluation that returned. *)
Lemma check_for_changes_returned (get : http) (parse : html_parser) (css : matcher)
    (config : Config) (fs fs' : filesystem) (changed : bool) (msg : str) :
  check_for_changes get parse css config fs = (Ok (changed, msg), fs') ->
  exists html content h,
    fetch_page_content get (monitor_url config) 30 = Ok html
    /\ extract_content parse css html (check_selector config) = Ok content
    /\ compute_hash content = Ok h
    /\ ((fst (load_previous_hash (hash_storage_path config) fs) = Ok None
         /\ save_hash (hash_storage_path config) h fs = (Ok tt, fs')
         /\ changed = false /\ msg = message FirstRun)
        \/ (fst (load_previous_hash (hash_storage_path config) fs) = Ok (Some h)
            /\ fs' = fs /\ changed = false /\ msg = message Unchanged)
        \/ (exists previous,
              fst (load_previous_hash (hash_storage_path config) fs) = Ok (Some previous)
              /\ h <> previous
              /\ save_hash (hash_storage_path config) h fs = (Ok tt, fs')
              /\ changed = true /\ msg = message Changed)).
Proof.
  intros H.
  destruct (fetch_page_content get (monitor_url config) 30) as [html|e] eqn:Hf;
    [|unfold check_for_changes, bind, lift in H; rewrite Hf in H; discriminate H].
  destruct (extract_content parse css html (check_selector config)) as [content|e] eqn:He;
    [|unfold check_for_changes, bind, lift in H; rewrite Hf, He in H; discriminate H].
  destruct (compute_hash content) as [h|e] eqn:Hh;
    [|unfold check_for_changes, bind, lift in H; rewrite Hf, He, Hh in H; discriminate H].
  exists html, content, h.
  split; [reflexivity|split; [exact He|split; [exact Hh|]]].
  rewrite (check_for_changes_eq _ _ _ _ _ _ _ _ Hf He Hh) in H.
  destruct (fst (load_previous_hash (hash_storage_path config) fs))
    as [[previous|]|e]; [| |discriminate H].
  - unfold str_eqb in H. destruct (bool_decide (h = previous)) eqn:Hb.
    + apply bool_decide_eq_true in Hb. subst previous.
      right. left. injection H as <- <- <-. repeat split.
    + apply bool_decide_eq_false in Hb. rename Hb into Hne.
      right. right. exists previous. unfold bind, ret in H.
      destruct (save_hash _ h fs) as [[[]|e] fs1]; [|discriminate H].
      injection H as <- <- <-. repeat split. exact Hne.
  - left. unfold bind, ret in H.
    destruct (save_hash _ h fs) as [[[]|e] fs1]; [|discriminate H].
    injection H as <- <- <-. repeat split.
Qed.

(** The file at a path, if there is one, can be read. *)
Lemma saved_baseline_loads (path h : str) (fs fs' : filesystem) :
  (forall payload w, fs !! path <> Some (File payload false w)) ->
  is_digest h ->
  save_hash path h fs = (Ok tt, fs') ->
  load_previous_hash path fs' = (Ok (Some h), fs').
Proof.
  intros Hr Hd Hs. destruct (save_hash_ok _ _ _ _ Hs) as (r & -> & Hrf).
  destruct r; [apply load_after_write, lower_hex_whitespace_free, Hd|].
  destruct (Hrf eq_refl) as [payload E]. destruct (Hr _ _ E).
Qed.

(** X9: an evaluation that returns is one of three: a first run (no
    baseline loaded, the fingerprint saved, [False]), no change (the
    baseline is the fingerprint, nothing written, [False]), or a change.
    [True] is returned only with the message of a change, and then the
    page was fetched and normalized, a baseline was loaded that differs
    from the fingerprint of that content, that fingerprint was saved, and
    it is what [load_previous_hash] returns afterwards. *)
Theorem change_reported_only_against_baseline (get : http) (parse : html_parser)
    (css : matcher) (config : Config) (fs fs' : filesystem) (changed : bool)
    (msg : str) :
  check_for_changes get parse css config fs = (Ok (changed, msg), fs') ->
  ((changed, msg) = (false, message FirstRun)
   \/ (changed, msg) = (false, message Unchanged)
   \/ (changed, msg) = (true, message Changed))
  /\ (changed = true ->
      exists html content h previous,
        fetch_page_content get (monitor_url config) 30 = Ok html
        /\ extract_content parse css html (check_selector config) = Ok content
        /\ compute_hash content = Ok h
        /\ load_previous_hash (hash_storage_path config) fs = (Ok (Some previous), fs)
        /\ h <> previous
        /\ save_hash (hash_storage_path config) h fs = (Ok tt, fs')
        /\ load_previous_hash (hash_storage_path config) fs' = (Ok (Some h), fs')).
Proof.
  intros H.
  destruct (check_for_changes_returned _ _ _ _ _ _ _ _ H)
    as (html & content & h & Hf & He & Hh & Hcase).
  split.
  - destruct Hcase as [(_ & _ & -> & ->)|[(_ & _ & -> & ->)|(p & _ & _ & _ & -> & ->)]];
      auto.
  - intros ->.
    destruct Hcase as [(_ & _ & [=] & _)|[(_ & _ & [=] & _)|(previous & Hl & Hne & Hs & _)]].
    exists html, content, h, previous.
    split; [exact Hf|]. split; [exact He|]. split; [exact Hh|].
    rewrite load_previous_hash_eq in Hl. cbn [fst] in Hl.
    destruct (fs !! hash_storage_path config) as [[payload [] w|w| | |]|] eqn:E;
      try discriminate Hl.
    split; [rewrite load_previous_hash_eq, E, Hl; reflexivity|].
    split; [exact Hne|]. split; [exact Hs|].
    apply (saved_baseline_loads _ _ fs fs'); [|exact (compute_hash_is_digest _ _ Hh)|exact Hs].
    intros payload' w' E'. rewrite E in E'. discriminate E'.
Qed.

Lemma change_reported_only_against_baseline_witness :
  let get := serve 200 "OK" html_plain in
  let fs : filesystem := {[ py "last_hash.txt" := File (py "0123abcd" ++ [10]) true true ]} in
  let fs' : filesystem := {[ py "last_hash.txt" := File hash_of_Content true true ]} in
  exists html content h previous,
    fetch_page_content get (py "https://example.org/news") 30 = Ok html
    /\ extract_content demo_parse by_name html None = Ok content
    /\ compute_hash content = Ok h
    /\ load_previous_hash (py "last_hash.txt") fs = (Ok (Some previous), fs)
    /\ h <> previous
    /\ save_hash (py "last_hash.txt") h fs = (Ok tt, fs')
    /\ load_previous_hash (py "last_hash.txt") fs' = (Ok (Some h), fs').
Proof.
  intros get fs fs'.
  refine (proj2 (change_reported_only_against_baseline get demo_parse by_name demo_config
                   fs fs' true (message Changed) _) eq_refl).
  vm_compute. reflexivity.
Defined.

(** After an evaluation that returned, the evaluation of a page that
    normalizes to the same content reports no change. *)
Lemma rerun_same_content (get get' : http) (parse : html_parser)
    (css : matcher) (config : Config) (fs fs' : filesystem)
    (changed : bool) (msg html html' content : str) :
  (forall payload w,
     fs !! hash_storage_path config <> Some (File payload false w)) ->
  fetch_page_content get (monitor_url config) 30 = Ok html ->
  extract_content parse css html (check_selector config) = Ok content ->
  fetch_page_content get' (monitor_url config) 30 = Ok html' ->
  extract_content parse css html' (check_selector config) = Ok content ->
  check_for_changes get parse css config fs = (Ok (changed, msg), fs') ->
  check_for_changes get' parse css config fs'
  = (Ok (false, message Unchanged), fs').
Proof.
  intros Hr Hf He Hf' He' H.
  destruct (check_for_changes_returned _ _ _ _ _ _ _ _ H)
    as (html0 & content0 & h & Hf0 & He0 & Hh & Hcase).
  rewrite Hf in Hf0. injection Hf0 as <-. rewrite He in He0. injection He0 as <-.
  pose proof (compute_hash_is_digest _ _ Hh) as Hd.
  assert (Hload : load_previous_hash (hash_storage_path config) fs' = (Ok (Some h), fs')).
  { destruct Hcase as [(_ & Hs & _)|[(Hl & -> & _)|(p & _ & _ & Hs & _)]].
    - apply (saved_baseline_loads _ _ _ _ Hr Hd Hs).
    - rewrite load_previous_hash_eq in Hl |- *. cbn [fst] in Hl. rewrite Hl. reflexivity.
    - apply (saved_baseline_loads _ _ _ _ Hr Hd Hs). }
  rewrite (check_for_changes_eq _ _ _ _ _ _ _ _ Hf' He' Hh), Hload. cbn [fst].
  unfold str_eqb. rewrite bool_decide_eq_true_2 by reflexivity. reflexivity.
Qed.

(** X10: running again on the same page is a no-op: after an evaluation
    that returned, first run or not, the next evaluation returns [False]
    with the message of no change and leaves the file system as it is,
    provided the baseline file, if it was there, could be read. *)
Theorem second_run_reports_no_change (get : http) (parse : html_parser)
    (css : matcher) (config : Config) (fs fs' : filesystem)
    (changed : bool) (msg : str) :
  (forall payload w,
     fs !! hash_storage_path config <> Some (File payload false w)) ->
  check_for_changes get parse css config fs = (Ok (changed, msg), fs') ->
  check_for_changes get parse css config fs'
  = (Ok (false, message Unchanged), fs').
Proof.
  intros Hr H.
  destruct (check_for_changes_returned _ _ _ _ _ _ _ _ H)
    as (html & content & h & Hf & He & _).
  apply (rerun_same_content get get parse css config fs fs' changed msg
           html html content Hr Hf He Hf He H).
Qed.

Lemma second_run_reports_no_change_witness :
  let get := serve 200 "OK" html_plain in
  let fs' : filesystem := {[ py "last_hash.txt" := File hash_of_Content true true ]} in
  check_for_changes get demo_parse by_name demo_config fs'
  = (Ok (false, message Unchanged), fs').
Proof.
  intros get fs'.
  refine (second_run_reports_no_change get demo_parse by_name demo_config ∅ fs'
            false (message FirstRun) _ _).
  - intros payload w. vm_compute. discriminate.
  - vm_compute. reflexivity.
Defined.

(** X11: noise raises no alarm: when the page fetched next differs from
    the page of an evaluation that returned only in noise tags standing
    between sibling nodes, the next evaluation returns [False] with the
    message of no change and writes nothing, provided the baseline file,
    if it was there before the first of the two evaluations, could be
    read. *)
Theorem noise_is_not_reported (get get' : http) (parse : html_parser)
    (css : matcher) (config : Config) (fs fs' : filesystem)
    (changed : bool) (msg html html' : str) :
  (forall payload w,
     fs !! hash_storage_path config <> Some (File payload false w)) ->
  fetch_page_content get (monitor_url config) 30 = Ok html ->
  fetch_page_content get' (monitor_url config) 30 = Ok html' ->
  differ_in_noise_between (parse html) (parse html') ->
  check_for_changes get parse css config fs = (Ok (changed, msg), fs') ->
  check_for_changes get' parse css config fs'
  = (Ok (false, message Unchanged), fs').
Proof.
  intros Hr Hf Hf' Hnoise H.
  destruct (check_for_changes_returned _ _ _ _ _ _ _ _ H)
    as (html0 & content & h & Hf0 & He & _).
  rewrite Hf in Hf0. injection Hf0 as <-.
  apply (rerun_same_content get get' parse css config fs fs'
           changed msg html html' content Hr Hf He Hf'); [|exact H].
  rewrite <- He. unfold extract_content.
  apply extract_soup_same_tree. symmetry. apply noise_between_same_tree, Hnoise.
Qed.

Lemma noise_is_not_reported_witness :
  let get := serve 200 "OK" html_plain in
  let get' := serve 200 "OK" html_with_script in
  let fs' : filesystem := {[ py "last_hash.txt" := File hash_of_Content true true ]} in
  check_for_changes get' demo_parse by_name demo_config fs'
  = (Ok (false, message Unchanged), fs').
Proof.
  intros get get' fs'.
  refine (noise_is_not_reported get get' demo_parse by_name demo_config ∅ fs'
            false (message FirstRun) html_plain html_with_script _ _ _ _ _).
  - intros payload w. vm_compute. discriminate.
  - reflexivity.
  - reflexivity.
  - assert (E1 : demo_parse html_with_script = page_with_script) by (vm_compute; reflexivity).
    assert (E2 : demo_parse html_plain = page_plain) by (vm_compute; reflexivity).
    rewrite E1, E2. apply rst_sym, script_between_siblings.
  - vm_compute. reflexivity.
Defined.

Lemma encode_utf8_raises (s : str) (e : exn) :
  encode_utf8 s = Raise e -> e = UnicodeEncodeError.
Proof.
  induction s as [|c s IH]; [discriminate|]. cbn [encode_utf8].
  destruct (utf8_char c); [|intros [= <-]; reflexivity].
  destruct (encode_utf8 s); [discriminate|]. cbn. intros [= <-]. apply IH. reflexivity.
Qed.

Lemma save_hash_raises (path v : str) (fs fs' : filesystem) (e : exn) :
  save_hash path v fs = (Raise e, fs') ->
  e = OSError \/ e = UnicodeEncodeError.
Proof.
  unfold save_hash, bind.
  destruct (mkdir_parents path fs) as [[[]|e'] fs1] eqn:Hm.
  - unfold write_text. cbv zeta.
    destruct (fs1 !! path) as [[payload r [] |[]| | |]|];
      destruct (encode_utf8 v) as [b|e''] eqn:Hv;
      intros [= <- _]; auto; right; apply (encode_utf8_raises v), Hv.
  - intros [= <- _]. left. apply (mkdir_parents_raises _ _ _ _ Hm).
Qed.

(** X12: a [MonitorError] out of [check_for_changes] comes from the
    fetch or from the selector, never from the hashing or from the store,
    and the file system is then as it was: the baseline is neither read
    nor written before the page is fetched and normalized. *)
Theorem monitor_error_leaves_store (get : http) (parse : html_parser)
    (css : matcher) (config : Config) (fs fs' : filesystem) (m : monitor_error) :
  check_for_changes get parse css config fs = (Raise (MonitorError m), fs') ->
  fs' = fs
  /\ (fetch_page_content get (monitor_url config) 30 = Raise (MonitorError m)
      \/ exists html,
           fetch_page_content get (monitor_url config) 30 = Ok html
           /\ extract_content parse css html (check_selector config)
              = Raise (MonitorError m)).
Proof.
  unfold check_for_changes, bind at 1 2 3, lift.
  destruct (fetch_page_content _ _ _) as [html|e]; [|intros [= <- <-]; auto].
  destruct (extract_content _ _ _ _) as [content|e] eqn:He;
    [|intros [= -> <-]; split; [reflexivity|right; exists html; auto]].
  destruct (compute_hash content) as [h|e] eqn:Hh.
  - unfold bind at 1. rewrite load_previous_hash_eq.
    assert (Hsave : forall (k : unit -> io (bool * str)),
               (forall u fs0, fst (k u fs0) <> Raise (MonitorError m)) ->
               bind (save_hash (hash_storage_path config) h) k fs
               <> (Raise (MonitorError m), fs')).
    { intros k Hk. unfold bind.
      destruct (save_hash _ h fs) as [[u|e] fs1] eqn:E.
      - intros Hbad. apply (Hk u fs1). rewrite Hbad. reflexivity.
      - intros [= -> _]. destruct (save_hash_raises _ _ _ _ _ E); discriminate. }
    destruct (fs !! hash_storage_path config) as [[payload [] w|w| | |]|];
      try discriminate;
      try (intros Hbad; exfalso; revert Hbad; apply Hsave; discriminate).
    destruct (str_eqb h _); [discriminate|].
    intros Hbad; exfalso; revert Hbad; apply Hsave; discriminate.
  - intros [= -> _]. exfalso. unfold compute_hash in Hh.
    destruct (encode_utf8 content) eqn:Hc; [discriminate Hh|].
    cbn in Hh. injection Hh as ->. apply encode_utf8_raises in Hc. discriminate Hc.
Qed.

Lemma monitor_error_leaves_store_witness :
  let fs : filesystem := {[ py "last_hash.txt" := File hash_of_Content true true ]} in
  let get := serve 503 "Service Unavailable" [] in
  snd (check_for_changes get demo_parse by_name demo_config fs) = fs
  /\ (fetch_page_content get (py "https://example.org/news") 30
      = Raise (MonitorError (HttpError 503 (py "Service Unavailable")))
      \/ exists html,
           fetch_page_content get (py "https://example.org/news") 30 = Ok html
           /\ extract_content demo_parse by_name html None
              = Raise (MonitorError (HttpError 503 (py "Service Unavailable")))).
Proof.
  intros fs get.
  apply (monitor_error_leaves_store get demo_parse by_name demo_config fs
           (snd (check_for_changes get demo_parse by_name demo_config fs))
           (HttpError 503 (py "Service Unavailable"))).
  reflexivity.
Defined.

(** ** Configuration *)

Lemma startswith_prefix (prefix s : str) :
  startswith prefix s = true <-> exists rest, s = prefix ++ rest.
Proof.
  revert s. induction prefix as [|p prefix IH]; intros s.
  - split; [intros _; exists s; reflexivity|reflexivity].
  - destruct s as [|c s]; cbn [startswith].
    + split; [discriminate|]. intros [rest E]. discriminate E.
    + rewrite andb_true_iff, N.eqb_eq, IH. split.
      * intros [-> [rest ->]]. exists rest. reflexivity.
      * intros [rest [= -> ->]]. eauto.
Qed.

Lemma has_at_In (s : str) : has_at s = true <-> In 64 s.
Proof.
  unfold has_at. rewrite existsb_exists. split.
  - intros (c & Hin & ->%N.eqb_eq). exact Hin.
  - intros Hin. exists 64. split; [exact Hin|reflexivity].
Qed.

Lemma url_scheme_checked (config : Config) :
  startswith (py "http://") (monitor_url config)
  || startswith (py "https://") (monitor_url config) = true
  <-> url_has_scheme config.
Proof.
  unfold url_has_scheme. rewrite orb_true_iff, !startswith_prefix. reflexivity.
Qed.

Lemma port_range_checked (config : Config) :
  (1 <=? email_smtp_port config) && (email_smtp_port config <=? 65535) = true
  <-> port_in_range config.
Proof.
  unfold port_in_range. rewrite andb_true_iff, !N.leb_le. reflexivity.
Qed.

(** X13: [validate_config] returns exactly on the configurations whose
    URL begins with "http://" or "https://" (in lowercase; what follows is
    not looked at), whose two addresses hold an "@", and whose port is
    from 1 to 65535; otherwise the first requirement that fails, in that
    order, gives the message of the error. *)
Theorem validate_config_accepts (config : Config) :
  (validate_config config = Passed tt
   <-> url_has_scheme config /\ In 64 (email_from config)
       /\ In 64 (email_to config) /\ port_in_range config)
  /\ (~ url_has_scheme config ->
      validate_config config
      = ConfigError (py "Invalid MONITOR_URL: must start with http:// or https://"))
  /\ (url_has_scheme config -> ~ In 64 (email_from config) ->
      validate_config config
      = ConfigError (py "Invalid EMAIL_FROM: must be a valid email address"))
  /\ (url_has_scheme config -> In 64 (email_from config) ->
      ~ In 64 (email_to config) ->
      validate_config config
      = ConfigError (py "Invalid EMAIL_TO: must be a valid email address"))
  /\ (url_has_scheme config -> In 64 (email_from config) ->
      In 64 (email_to config) -> ~ port_in_range config ->
      validate_config config
      = ConfigError (py "Invalid EMAIL_SMTP_PORT: must be between 1 and 65535")).
Proof.
  unfold validate_config.
  pose proof (url_scheme_checked config) as Hu.
  pose proof (has_at_In (email_from config)) as Hf.
  pose proof (has_at_In (email_to config)) as Ht.
  pose proof (port_range_checked config) as Hp.
  destruct (startswith (py "http://") (monitor_url config)
            || startswith (py "https://") (monitor_url config));
    destruct (has_at (email_from config));
    destruct (has_at (email_to config));
    destruct ((1 <=? email_smtp_port config) && (email_smtp_port config <=? 65535));
    cbn [negb];
    repeat match goal with |- _ /\ _ => split end;
    try (intros; reflexivity);
    try (intros; exfalso; intuition congruence);
    try (intros H; discriminate H);
    intuition congruence.
Qed.

Lemma validate_config_accepts_witness :
  validate_config demo_config = Passed tt
  /\ validate_config
       {| monitor_url := py "HTTPS://example.org/news";
          email_from := py "monitor@example.org"; email_to := py "me@example.org";
          email_password := []; check_selector := None;
          email_smtp_host := py "smtp.gmail.com"; email_smtp_port := 465;
          hash_storage_path := py "last_hash.txt" |}
     = ConfigError (py "Invalid MONITOR_URL: must start with http:// or https://")
  /\ validate_config
       {| monitor_url := py "http://";
          email_from := py "@"; email_to := py "@";
          email_password := []; check_selector := None;
          email_smtp_host := []; email_smtp_port := 65536;
          hash_storage_path := [] |}
     = ConfigError (py "Invalid EMAIL_SMTP_PORT: must be between 1 and 65535").
Proof.
  split; [|split].
  - apply (proj1 (validate_config_accepts demo_config)).
    repeat split.
    + right. exists (py "example.org/news"). reflexivity.
    + apply has_at_In. reflexivity.
    + apply has_at_In. reflexivity.
    + cbn. lia.
    + cbn. lia.
  - apply (proj1 (proj2 (validate_config_accepts _))).
    intros [[rest E]|[rest E]]; discriminate E.
  - apply (proj2 (proj2 (proj2 (proj2 (validate_config_accepts _))))).
    + left. exists []. reflexivity.
    + left. reflexivity.
    + left. reflexivity.
    + unfold port_in_range. cbn. lia.
Defined.

(** ** Entry point *)

(** What [notify_change] returns and opens, by the outcome of the mail
    system. *)
Lemma notify_change_sessions (mail : mailer) (timestamp : str) (config : Config)
    (url : str) (c : Config) (subject body : str) :
  In (Session c subject body) (snd (notify_change mail timestamp config url)) ->
  c = config /\ subject = notification_subject
  /\ body = notification_body url timestamp.
Proof.
  unfold notify_change, send_email.
  destruct (mail config notification_subject (notification_body url timestamp));
    cbn; intuition (try discriminate); congruence.
Qed.

Lemma notify_change_returns_true (mail : mailer) (timestamp : str) (config : Config)
    (url : str) :
  fst (notify_change mail timestamp config url) = Returns true
  <-> mail config notification_subject (notification_body url timestamp) = Delivered.
Proof.
  unfold notify_change, send_email.
  destruct (mail config notification_subject (notification_body url timestamp));
    cbn; split; (discriminate || reflexivity).
Qed.

(** X14: [main] returns only 0 or 1, and it returns 0 exactly when the
    configuration is loaded and valid, the evaluation returns, and either
    no change is reported or the notification is delivered. *)
Theorem main_exit_code (load_config : checked Config) (get : http)
    (parse : html_parser) (css : matcher) (mail : mailer) (timestamp : str)
    (fs : filesystem) :
  let r := main load_config get parse css mail timestamp fs in
  (forall code, ended r = Exit code -> code = 0 \/ code = 1)
  /\ (ended r = Exit 0 <->
      exists config changed msg fs',
        load_config = Passed config
        /\ validate_config config = Passed tt
        /\ check_for_changes get parse css config fs = (Ok (changed, msg), fs')
        /\ (changed = false
            \/ mail config notification_subject
                 (notification_body (monitor_url config) timestamp) = Delivered)).
Proof.
  cbv zeta. unfold main.
  destruct load_config as [config|e];
    [|split; [intros code [= <-]; auto|];
      split; [discriminate|intros (? & ? & ? & ? & [=] & _)]].
  destruct (validate_config config) as [[]|e] eqn:Hv;
    [|split; [intros code [= <-]; auto|];
      split; [discriminate|intros (? & ? & ? & ? & [= <-] & Hv' & _); congruence]].
  destruct (check_for_changes get parse css config fs) as [[[changed msg]|e] fs'] eqn:Hc.
  - destruct changed.
    + pose proof (notify_change_returns_true mail timestamp config (monitor_url config))
        as Hn.
      destruct (notify_change mail timestamp config (monitor_url config))
        as [[[]|] printed]; cbn [ended fst] in *.
      * split; [intros code [= <-]; auto|]. split; [|reflexivity].
        intros _. exists config, true, msg, fs'. repeat split; auto.
        right. apply Hn. reflexivity.
      * split; [intros code [= <-]; auto|]. split; [discriminate|].
        intros (c & ch & m & f & [= <-] & _ & Hc' & Hor).
        rewrite Hc in Hc'. injection Hc' as <- _ _.
        destruct Hor as [Hch|Hd]; [discriminate Hch|].
        apply Hn in Hd. discriminate Hd.
      * split; [discriminate|]. split; [discriminate|].
        intros (c & ch & m & f & [= <-] & _ & Hc' & Hor).
        rewrite Hc in Hc'. injection Hc' as <- _ _.
        destruct Hor as [Hch|Hd]; [discriminate Hch|].
        apply Hn in Hd. discriminate Hd.
    + cbn [ended]. split; [intros code [= <-]; auto|]. split; [|reflexivity].
      intros _. exists config, false, msg, fs'. repeat split; auto.
  - assert (Hno : ~ exists (c : Config) (ch : bool) (m : str) (f : filesystem),
                      Passed config = Passed c
                      /\ validate_config c = Passed tt
                      /\ check_for_changes get parse css c fs = (Ok (ch, m), f)
                      /\ (ch = false
                          \/ mail c notification_subject
                               (notification_body (monitor_url c) timestamp) = Delivered)).
    { intros (c & ch & m & f & [= <-] & _ & Hc' & _).
      rewrite Hc in Hc'. discriminate Hc'. }
    destruct e; cbn [ended];
      (split; [intros code H; first [discriminate H|injection H as <-; auto]|]);
      (split; [discriminate|intros H; destruct (Hno H)]).
Qed.

Lemma main_exit_code_witness :
  let get := serve 200 "OK" html_plain in
  let mail : mailer := fun _ _ _ => SMTPAuthenticationError in
  ended (main (Passed demo_config) get demo_parse by_name mail (py "2026-01-01 00:00:00") ∅)
  = Exit 0.
Proof.
  intros get mail.
  apply (proj2 (proj2 (main_exit_code (Passed demo_config) get demo_parse by_name mail
                         (py "2026-01-01 00:00:00") ∅))).
  exists demo_config, false, (message FirstRun),
    (<[py "last_hash.txt" := File hash_of_Content true true]> ∅).
  split; [reflexivity|]. split; [vm_compute; reflexivity|].
  split; [vm_compute; reflexivity|]. left. reflexivity.
Defined.

(** The URL stands in the body of the notification. *)
Lemma notification_body_names_url (url timestamp : str) :
  exists before after, notification_body url timestamp = before ++ url ++ after.
Proof.
  exists (py "A change has been detected on the monitored page." ++ [10; 10]
          ++ py "URL: "),
         ([10] ++ py "Detected at: " ++ timestamp ++ [10; 10]
          ++ py "Visit the page to see what's new!" ++ [10]).
  unfold notification_body. rewrite <- !app_assoc. reflexivity.
Qed.

(** X15: [main] opens an SMTP session only when the evaluation returned
    [True], with the message of a change: never on a first run, when
    nothing changed, or when something failed.  The session is for the
    loaded configuration, and the body of its message names the monitored
    URL. *)
Theorem main_notifies_only_on_change (load_config : checked Config) (get : http)
    (parse : html_parser) (css : matcher) (mail : mailer) (timestamp : str)
    (fs : filesystem) (c : Config) (subject body : str) :
  In (Session c subject body)
     (output (main load_config get parse css mail timestamp fs)) ->
  load_config = Passed c
  /\ validate_config c = Passed tt
  /\ (exists fs',
        check_for_changes get parse css c fs = (Ok (true, message Changed), fs'))
  /\ subject = notification_subject
  /\ body = notification_body (monitor_url c) timestamp
  /\ exists before after, body = before ++ monitor_url c ++ after.
Proof.
  unfold main. cbv zeta.
  destruct load_config as [config|e]; [|cbn [output In app]; intuition discriminate].
  destruct (validate_config config) as [[]|e] eqn:Hv; [|cbn [output In app]; intuition discriminate].
  destruct (check_for_changes get parse css config fs) as [[[changed msg]|e] fs'] eqn:Hc.
  - destruct changed; [|cbn [output In app]; intuition discriminate].
    pose proof (notify_change_sessions mail timestamp config (monitor_url config)
                  c subject body) as Hs.
    assert (Hin : In (Session c subject body)
                    (snd (notify_change mail timestamp config (monitor_url config))) ->
                  Passed config = Passed c
                  /\ validate_config c = Passed tt
                  /\ (exists fs'0,
                        check_for_changes get parse css c fs
                        = (Ok (true, message Changed), fs'0))
                  /\ subject = notification_subject
                  /\ body = notification_body (monitor_url c) timestamp
                  /\ exists before after, body = before ++ monitor_url c ++ after).
    { intros H. destruct (Hs H) as (-> & -> & ->).
      split; [reflexivity|]. split; [exact Hv|]. split.
      - exists fs'.
        destruct (check_for_changes_returned _ _ _ _ _ _ _ _ Hc)
          as (? & ? & ? & _ & _ & _ & [(_ & _ & [=] & _)|[(_ & _ & [=] & _)|
                                        (? & _ & _ & _ & _ & ->)]]).
        exact Hc.
      - split; [reflexivity|]. split; [reflexivity|].
        apply notification_body_names_url. }
    destruct (notify_change mail timestamp config (monitor_url config))
      as [[[]|] printed]; cbn [output snd] in *; intros H;
      apply Hin; revert H; rewrite !in_app_iff; cbn [In];
      intuition discriminate.
  - destruct e; cbn [output In app]; intuition discriminate.
Qed.

Lemma main_notifies_only_on_change_witness :
  let get := serve 200 "OK" html_plain in
  let mail : mailer := fun _ _ _ => Delivered in
  let fs : filesystem := {[ py "last_hash.txt" := File (py "0123abcd") true true ]} in
  let now := py "2026-01-01 00:00:00" in
  In (Session demo_config notification_subject
        (notification_body (py "https://example.org/news") now))
     (output (main (Passed demo_config) get demo_parse by_name mail now fs))
  /\ exists fs',
       check_for_changes get demo_parse by_name demo_config fs
       = (Ok (true, message Changed), fs').
Proof.
  intros get mail fs now.
  assert (Hin : In (Session demo_config notification_subject
                      (notification_body (py "https://example.org/news") now))
                   (output (main (Passed demo_config) get demo_parse by_name mail now fs))).
  { assert (E : output (main (Passed demo_config) get demo_parse by_name mail now fs)
                = [Log (py "Starting Developer Activity Monitor");
                   Log (py "Monitoring URL: https://example.org/news");
                   Log (message Changed);
                   Log (py "Sending notification email...");
                   Session demo_config notification_subject
                     (notification_body (py "https://example.org/news") now);
                   Log (py "Notification sent successfully");
                   Log (py "Monitor completed successfully")])
      by (vm_compute; reflexivity).
    rewrite E. cbn [In]. auto 6. }
  split; [exact Hin|].
  exact (proj1 (proj2 (proj2 (main_notifies_only_on_change _ _ _ _ _ _ _ _ _ _ Hin)))).
Defined.

(** X16: of the exceptions of the evaluation, [main] handles
    [MonitorError] alone: it logs the message of the error and returns 1.
    Any other exception (an I/O error of the store, a baseline that does
    not decode, a selector the engine cannot read, a content that does not
    encode) leaves [main] uncaught.  Either way no SMTP session is opened
    and the file system is the one the evaluation left. *)
Theorem main_handles_monitor_errors_only (config : Config) (get : http)
    (parse : html_parser) (css : matcher) (mail : mailer) (timestamp : str)
    (fs fs' : filesystem) (e : exn) :
  validate_config config = Passed tt ->
  check_for_changes get parse css config fs = (Raise e, fs') ->
  let r := main (Passed config) get parse css mail timestamp fs in
  match e with
  | MonitorError m =>
      ended r = Exit 1
      /\ In (Log (py "Monitor error: " ++ monitor_error_message m)) (output r)
  | _ => ended r = Uncaught e
  end
  /\ files r = fs'
  /\ no_session (output r).
Proof.
  intros Hv Hc. cbv zeta. unfold main. cbv zeta. rewrite Hv, Hc.
  destruct e; cbn [ended files output]; repeat split;
    try (rewrite in_app_iff; right; left; reflexivity);
    intros c subject body; rewrite ?in_app_iff; cbn [In]; intuition discriminate.
Qed.

Lemma main_handles_monitor_errors_only_witness :
  let get := serve 200 "OK" html_plain in
  let mail : mailer := fun _ _ _ => Delivered in
  let fs : filesystem := {[ py "last_hash.txt" := Directory ]} in
  let r := main (Passed demo_config) get demo_parse by_name mail [] fs in
  ended r = Uncaught OSError /\ files r = fs /\ no_session (output r).
Proof.
  intros get mail fs.
  refine (main_handles_monitor_errors_only demo_config get demo_parse by_name mail []
            fs fs OSError _ _).
  - vm_compute. reflexivity.
  - vm_compute. reflexivity.
Defined.

(** X17: a notification that fails is not sent again: when a change is
    reported and the mail is not delivered, [main] does not return 0, yet
    the new baseline is saved; the next run on the same page returns 0,
    reports no change and opens no SMTP session. *)
Theorem failed_notification_is_not_retried (config : Config) (get : http)
    (parse : html_parser) (css : matcher) (mail mail' : mailer)
    (timestamp timestamp' msg : str) (fs fs' : filesystem) :
  validate_config config = Passed tt ->
  check_for_changes get parse css config fs = (Ok (true, msg), fs') ->
  mail config notification_subject
    (notification_body (monitor_url config) timestamp) <> Delivered ->
  let first := main (Passed config) get parse css mail timestamp fs in
  let second := main (Passed config) get parse css mail' timestamp' (files first) in
  ended first <> Exit 0
  /\ files first = fs'
  /\ ended second = Exit 0
  /\ files second = fs'
  /\ In (Log (message Unchanged)) (output second)
  /\ no_session (output second).
Proof.
  intros Hv Hc Hmail. cbv zeta.
  assert (Hfirst : ended (main (Passed config) get parse css mail timestamp fs) <> Exit 0
                   /\ files (main (Passed config) get parse css mail timestamp fs) = fs').
  { unfold main. cbv zeta. rewrite Hv, Hc.
    pose proof (notify_change_returns_true mail timestamp config (monitor_url config))
      as Hn.
    destruct (notify_change mail timestamp config (monitor_url config))
      as [[[]|] printed]; cbn [ended files fst] in *;
      split; try reflexivity; try discriminate.
    exfalso. apply Hmail, Hn. reflexivity. }
  destruct Hfirst as [Hended ->]. split; [exact Hended|]. split; [reflexivity|].
  assert (Hagain : check_for_changes get parse css config fs'
                   = (Ok (false, message Unchanged), fs')).
  { destruct (check_for_changes_returned _ _ _ _ _ _ _ _ Hc)
      as (html & content & h & Hf & He & Hh & Hcase).
    apply (rerun_same_content get get parse css config fs fs' true msg
             html html content); try assumption.
    intros payload w E.
    destruct Hcase as [(_ & _ & [=] & _)|[(_ & _ & [=] & _)|(p & Hl & _)]].
    rewrite load_previous_hash_eq, E in Hl. discriminate Hl. }
  unfold main. cbv zeta. rewrite Hv, Hagain. cbn [ended files output].
  repeat split.
  - rewrite in_app_iff. left. rewrite in_app_iff. right. left. reflexivity.
  - intros c subject body. rewrite !in_app_iff. cbn [In]. intuition discriminate.
Qed.

Lemma failed_notification_is_not_retried_witness :
  let get := serve 200 "OK" html_plain in
  let mail : mailer := fun _ _ _ => SMTPException (py "Connection refused") in
  let fs : filesystem := {[ py "last_hash.txt" := File (py "0123abcd") true true ]} in
  let first := main (Passed demo_config) get demo_parse by_name mail [] fs in
  let second := main (Passed demo_config) get demo_parse by_name mail [] (files first) in
  ended first <> Exit 0
  /\ ended second = Exit 0
  /\ no_session (output second).
Proof.
  intros get mail fs.
  destruct (failed_notification_is_not_retried demo_config get demo_parse by_name
              mail mail [] [] (message Changed) fs
              (<[py "last_hash.txt" := File hash_of_Content true true]> fs))
    as (H1 & _ & H2 & _ & _ & H3).
  - vm_compute. reflexivity.
  - vm_compute. reflexivity.
  - discriminate.
  - repeat split; assumption.
Defined.

(** ** A baseline that cannot be used *)

(** X18: the handler of [load_previous_hash] does not make the
    evaluation recover from a store that is broken.  On a baseline path
    that is a directory, that cannot be reached or where nothing can be
    created, the read error is swallowed and the write that follows raises
    the I/O error; on a baseline file that does not decode, the read
    raises.  In both cases [check_for_changes] raises, the file system is
    as it was, and so does every later run. *)
Theorem broken_store_is_not_repaired (get : http) (parse : html_parser)
    (css : matcher) (config : Config) (fs : filesystem) (html content h : str) :
  fetch_page_content get (monitor_url config) 30 = Ok html ->
  extract_content parse css html (check_selector config) = Ok content ->
  compute_hash content = Ok h ->
  (fs !! hash_storage_path config = Some Directory
   \/ fs !! hash_storage_path config = Some Unreachable
   \/ fs !! hash_storage_path config = Some Blocked ->
   load_previous_hash (hash_storage_path config) fs = (Ok None, fs)
   /\ check_for_changes get parse css config fs = (Raise OSError, fs))
  /\ (forall w,
        fs !! hash_storage_path config = Some (Undecodable w) ->
        check_for_changes get parse css config fs = (Raise UnicodeDecodeError, fs)).
Proof.
  intros Hf He Hh.
  pose proof (compute_hash_is_digest _ _ Hh) as [_ Hhex].
  rewrite (check_for_changes_eq _ _ _ _ _ _ _ _ Hf He Hh), load_previous_hash_eq.
  unfold bind, save_hash, bind, mkdir_parents, write_text. cbv zeta.
  split.
  - intros [E|[E|E]]; rewrite !E; split; reflexivity.
  - intros w E. rewrite E. reflexivity.
Qed.

Lemma broken_store_is_not_repaired_witness :
  let get := serve 200 "OK" html_plain in
  let fs : filesystem := {[ py "last_hash.txt" := Directory ]} in
  load_previous_hash (py "last_hash.txt") fs = (Ok None, fs)
  /\ check_for_changes get demo_parse by_name demo_config fs = (Raise OSError, fs).
Proof.
  intros get fs.
  refine (proj1 (broken_store_is_not_repaired get demo_parse by_name demo_config fs
                   html_plain (py "Content") hash_of_Content _ _ _) _).
  - reflexivity.
  - vm_compute. reflexivity.
  - vm_compute. reflexivity.
  - left. vm_compute. reflexivity.
Defined.

(** ** Values computed by the entry point *)

(** A first run with the baseline two directories down makes both
    directories and the file. *)
Example first_run_makes_directories :
  check_for_changes (serve 200 "OK" html_plain) demo_parse by_name nested_config ∅
  = (Ok (false, message FirstRun),
     {[ py "data" := Directory; py "data/seen" := Directory;
        py "data/seen/last_hash.txt" := File hash_of_Content true true ]}).
Proof. vm_compute. reflexivity. Qed.

Example decimal_values :
  decimal 0 = py "0" /\ decimal 30 = py "30" /\ decimal 404 = py "404"
  /\ decimal 65535 = py "65535".
Proof. repeat split; vm_compute; reflexivity. Qed.

Example main_first_run :
  let r := main (Passed demo_config) (serve 200 "OK" html_plain) demo_parse by_name
             (fun _ _ _ => Delivered) (py "2026-01-01 00:00:00") ∅ in
  ended r = Exit 0
  /\ files r = {[ py "last_hash.txt" := File hash_of_Content true true ]}
  /\ output r = [Log (py "Starting Developer Activity Monitor");
                 Log (py "Monitoring URL: https://example.org/news");
                 Log (py "First run - baseline hash saved");
                 Log (py "No notification needed");
                 Log (py "Monitor completed successfully")].
Proof. vm_compute. repeat split; reflexivity. Qed.

Example main_not_found :
  let r := main (Passed demo_config) (serve 404 "Not Found" []) demo_parse by_name
             (fun _ _ _ => Delivered) (py "2026-01-01 00:00:00") ∅ in
  ended r = Exit 1
  /\ files r = ∅
  /\ output r = [Log (py "Starting Developer Activity Monitor");
                 Log (py "Monitoring URL: https://example.org/news");
                 Log (py "Monitor error: HTTP error 404: Not Found")].
Proof. vm_compute. repeat split; reflexivity. Qed.
